(** * cuDNN custom module of the nvgpu runtime: a shallow embedding

    Source: [openxla/runtime/nvgpu/cudnn_module.cpp].

    The embedding keeps the shape of the C++ code:
    - [int64_t] and [size_t] values are integers of [Z] with the 64-bit
      wrap-around written out (module [Int64], module [SizeT]);
    - [std::vector<int64_t>] is a [list Z] read with stdpp's lookup and
      written in place with stdpp's insert; an access outside the vector is
      undefined behaviour in C++ and is [None] here;
    - calls that leave the translation unit (the VM list API, the cuDNN
      library, the dynamic symbol loader, the VM type registry, [stderr])
      are recorded as events, in program order, next to the result of the
      function that makes them;
    - a function that returns [iree::Status] or [iree::StatusOr<T>] ends in
      an [Outcome]: a value, a failing status, an abort, or undefined
      behaviour. *)

From Stdlib Require Import ZArith Lia Ascii.
From stdpp Require Import base option list strings.

(** ** Machine integers *)

Module SizeT.
(** [size_t] of the 64-bit targets the CUDA runtime supports. *)
Definition modulus : Z := (2 ^ 64)%Z.
Definition wrap (z : Z) : Z := (z mod modulus)%Z.
Definition sub (a b : Z) : Z := wrap (a - b).
End SizeT.

Module Int64.
Definition half_modulus : Z := (2 ^ 63)%Z.

(** Conversion of an unsigned 64-bit value to [int64_t]. *)
Definition of_unsigned (u : Z) : Z :=
  if (u <? half_modulus)%Z then u else (u - SizeT.modulus)%Z.

Definition wrap (z : Z) : Z := of_unsigned (SizeT.wrap z).

(** [a * b] on [int64_t]. An overflow of a signed product is undefined
    behaviour in C++; the model takes the value that the two's complement
    machine computes. A statement about the absence of undefined behaviour
    therefore carries the hypothesis that no product overflows
    ([products_fit] below). *)
Definition mul (a b : Z) : Z := wrap (a * b).

Definition in_range (z : Z) : Prop := (- half_modulus <= z < half_modulus)%Z.

End Int64.

(** ** [std::vector<int64_t>] accessed by index *)

Definition vector_at (v : list Z) (i : nat) : option Z := v !! i.

Definition vector_store (v : list Z) (i : nat) (x : Z) : option (list Z) :=
  if decide (i < length v) then Some (<[i := x]> v) else None.

(** ** GetRowMajorStrides (lines 84-89)

    [for (int64_t i = dims.size() - 2; i >= 0; --i)
       strides[i] = dims[i] * strides[i + 1];]

    The loop counter takes the values [i0, i0 - 1, ..., 0]; the model
    recurses on [i + 1], the number of iterations left, so that the guard
    [i >= 0] is the test for a successor. *)

(** [int64_t i = dims.size() - 2]: the subtraction is done on [size_t]
    and the result converted to [int64_t]. *)
Definition GetRowMajorStrides_start (size : nat) : Z :=
  Int64.of_unsigned (SizeT.sub (Z.of_nat size) 2).

Fixpoint GetRowMajorStrides_loop (dims : list Z) (iterations : nat)
    (strides : list Z) : option (list Z) :=
  match iterations with
  | O => Some strides
  | S i =>
      d ← vector_at dims i;
      s ← vector_at strides (S i);
      strides' ← vector_store strides i (Int64.mul d s);
      GetRowMajorStrides_loop dims i strides'
  end.

Definition GetRowMajorStrides (dims : list Z) : option (list Z) :=
  let strides := replicate (length dims) 1%Z in
  let i := GetRowMajorStrides_start (length dims) in
  GetRowMajorStrides_loop dims (Z.to_nat (i + 1)) strides.

(** The row-major rule in the words of the specification: the last stride
    is 1 and stride [i] is dimension [i+1] times stride [i+1]. *)
Fixpoint row_major_rule (dims : list Z) : list Z :=
  match dims with
  | [] => []
  | _ :: rest =>
      let tail := row_major_rule rest in
      match head rest, head tail with
      | Some d, Some s => (d * s)%Z :: tail
      | _, _ => 1%Z :: tail
      end
  end.

(** The product of a sequence of extents, and a shape without its last
    dimension: the vocabulary of the closed form of the strides. *)
Definition product (factors : list Z) : Z := foldr Z.mul 1%Z factors.

Definition without_last (dims : list Z) : list Z :=
  take (length dims - 1) dims.

(** No multiplication of the stride loop overflows [int64_t]: the loop
    forms, at index [i], the product of the dimensions from [i] up to the
    last but one, and each of these products fits. *)
Definition products_fit (dims : list Z) : Prop :=
  ∀ i, i < length dims →
    Int64.in_range (product (drop i (without_last dims))).

(** ** Status values

    [iree::StatusCode] of [iree/base/status_cc.h]; an [iree_status_t] (and
    its C++ wrapper [iree::Status]) is a code with a message, and is OK
    exactly when its code is [kOk]. *)

Inductive StatusCode :=
  | kOk | kCancelled | kUnknown | kInvalidArgument | kDeadlineExceeded
  | kNotFound | kAlreadyExists | kPermissionDenied | kResourceExhausted
  | kFailedPrecondition | kAborted | kOutOfRange | kUnimplemented
  | kInternal | kUnavailable | kDataLoss | kUnauthenticated | kDeferred.

Record iree_status_t := Status { code : StatusCode; message : string }.

Definition iree_ok_status : iree_status_t := Status kOk EmptyString.

Definition iree_status_is_ok (status : iree_status_t) : bool :=
  match code status with kOk => true | _ => false end.

(** [iree::StatusOr<T>]. *)
Inductive StatusOr (T : Type) :=
  | Value (value : T)
  | Error (status : iree_status_t).
Arguments Value {T} value.
Arguments Error {T} status.

(** ** Values of the VM ([iree/vm/value.h]) *)

Inductive iree_vm_value_type_t :=
  | IREE_VM_VALUE_TYPE_NONE | IREE_VM_VALUE_TYPE_I8 | IREE_VM_VALUE_TYPE_I16
  | IREE_VM_VALUE_TYPE_I32 | IREE_VM_VALUE_TYPE_I64 | IREE_VM_VALUE_TYPE_F32
  | IREE_VM_VALUE_TYPE_F64.

(** Only the [i64] member of the value union is read by this module. *)
Record iree_vm_value_t := { value_type : iree_vm_value_type_t; i64 : Z }.

(** ** Tensors

    Modelled from the spec: [cudnn_tensor.h] is not part of the sources at
    hand. A [CuDNNTensor] reference points either to an argument tensor,
    which wraps a [cudnn_frontend::Tensor], or to a tensor of another kind.
    A [vm::ref<CuDNNTensor>] may be null, which is [None]. *)

Inductive CuDNNTensor (FrontendTensor : Type) :=
  | CuDNNArgTensor (tensor : FrontendTensor)
  | CuDNNOtherTensor.
Arguments CuDNNArgTensor {FrontendTensor} tensor.
Arguments CuDNNOtherTensor {FrontendTensor}.

(** ** Reference type descriptors ([iree/vm/ref.h]) *)

Record iree_vm_ref_type_descriptor_t (DestroyFn : Type) := {
  destroy : option DestroyFn;
  offsetof_counter : Z;
  type_name : string;
  type : Z
}.
Arguments destroy {DestroyFn} _.
Arguments offsetof_counter {DestroyFn} _.
Arguments type_name {DestroyFn} _.
Arguments type {DestroyFn} _.

(** What the template parameter [T] of [RegisterType] must provide. *)
Class RefObject (DestroyFn : Type) (T : Type) := {
  T_offsetof_counter : Z;
  T_DirectDestroy : DestroyFn
}.
Arguments T_offsetof_counter {DestroyFn} T {_}.
Arguments T_DirectDestroy {DestroyFn} T {_}.

(** ** What the module takes from outside its translation unit

    Types, constants and functions of the IREE VM, of cuDNN and of the
    sibling files of the runtime. The module is verified for every choice
    of them. A call with an out-parameter returns the written value next to
    its status. *)

Class Externals := {
  (* iree/vm/list.h *)
  iree_vm_list_t : Type;
  iree_vm_list_size : iree_vm_list_t → nat;
  iree_vm_list_get_value_as :
    iree_vm_list_t → nat → iree_vm_value_type_t →
    iree_status_t * iree_vm_value_t;
  (* iree/vm/ref.h *)
  iree_vm_ref_destroy_t : Type;
  IREE_VM_REF_TYPE_NULL : Z;
  iree_vm_ref_register_type :
    iree_vm_ref_type_descriptor_t iree_vm_ref_destroy_t →
    iree_status_t * iree_vm_ref_type_descriptor_t iree_vm_ref_destroy_t;
  (* iree/base/allocator.h *)
  iree_allocator_t : Type;
  (* cudnn.h: the first and the last enumerator of cudnnDataType_t *)
  CUDNN_DATA_FLOAT : Z;
  CUDNN_DATA_FAST_FLOAT_FOR_FP8 : Z;
  CUDNN_STATUS_SUCCESS : Z;
  cudnnHandle_t : Type;
  (* openxla/runtime/nvgpu/dynamic_symbols.h *)
  openxla_cudnn_dynamic_symbols_t : Type;
  openxla_cudnn_dynamic_symbols_initialize :
    iree_allocator_t → iree_status_t * openxla_cudnn_dynamic_symbols_t;
  cudnnCreate : openxla_cudnn_dynamic_symbols_t → Z * cudnnHandle_t;
  cudnnDestroy : openxla_cudnn_dynamic_symbols_t → cudnnHandle_t → Z;
  (* openxla/runtime/nvgpu/status_util.h: a native error as a status *)
  openxla_cudnn_status_to_status : Z → string → iree_status_t;
  (* cudnn_frontend and openxla/runtime/nvgpu/cudnn_tensor.h *)
  cudnn_frontend_Tensor : Type;
  describe : cudnn_frontend_Tensor → string;
  CuDNNArgTensor_Create :
    openxla_cudnn_dynamic_symbols_t → list Z → list Z → Z → Z → Z →
    StatusOr (option (CuDNNTensor cudnn_frontend_Tensor))
}.

(** ** Calls that leave the module, and the results of running it *)

Section CuDNN.
Context `{Ext : Externals}.

Definition cudnnDataType_t := Z.
Definition vm_ref (T : Type) := option T.
Definition descriptor_t := iree_vm_ref_type_descriptor_t iree_vm_ref_destroy_t.

Inductive Event :=
  | EvListSize (vm_list : iree_vm_list_t)
  | EvListGetValueAs (vm_list : iree_vm_list_t) (i : nat)
      (value_type : iree_vm_value_type_t)
  | EvArgTensorCreate (syms : openxla_cudnn_dynamic_symbols_t)
      (dimensions strides : list Z) (uid : Z) (data_type : cudnnDataType_t)
      (alignment : Z)
  | EvSymbolsInitialize (host_allocator : iree_allocator_t)
  | EvCudnnCreate (syms : openxla_cudnn_dynamic_symbols_t)
  | EvCudnnDestroy (syms : openxla_cudnn_dynamic_symbols_t)
      (handle : cudnnHandle_t)
  | EvRefRegisterType (descriptor : descriptor_t)
  | EvStderr (text : string).

Definition is_list_access (e : Event) : bool :=
  match e with EvListSize _ | EvListGetValueAs _ _ _ => true | _ => false end.
Definition is_tensor_create (e : Event) : bool :=
  match e with EvArgTensorCreate _ _ _ _ _ _ => true | _ => false end.
Definition is_cudnn_create (e : Event) : bool :=
  match e with EvCudnnCreate _ => true | _ => false end.
Definition is_cudnn_destroy (e : Event) : bool :=
  match e with EvCudnnDestroy _ _ => true | _ => false end.

(** How a function of the module ends: it returns a value, it returns a
    failing status, the process is aborted by a failed check, or it has
    run into undefined behaviour. *)
Inductive Outcome (T : Type) :=
  | Ok (value : T)
  | Failed (status : iree_status_t)
  | Aborted
  | Undefined.
Global Arguments Ok {T} value.
Global Arguments Failed {T} status.
Global Arguments Aborted {T}.
Global Arguments Undefined {T}.

(** A run: the outcome and the external calls made, oldest first. *)
Definition Run (T : Type) : Type := Outcome T * list Event.

Definition run_ret {A} (a : A) : Run A := (Ok a, []).

Definition run_bind {A B} (f : A → Run B) (m : Run A) : Run B :=
  match m with
  | (Ok a, events) =>
      let (outcome, events') := f a in (outcome, events ++ events')
  | (Failed status, events) => (Failed status, events)
  | (Aborted, events) => (Aborted, events)
  | (Undefined, events) => (Undefined, events)
  end.

Global Instance Run_ret : MRet Run := @run_ret.
Global Instance Run_bind : MBind Run := @run_bind.

(** An external call: it is logged and its result handed to the caller. *)
Definition extern {A} (e : Event) (result : A) : Run A := (Ok result, [e]).

Definition fail {A} (status : iree_status_t) : Run A := (Failed status, []).

(** [IREE_RETURN_IF_ERROR(expr)] of [iree/base/status.h]. *)
Definition IREE_RETURN_IF_ERROR (status : iree_status_t) : Run unit :=
  if iree_status_is_ok status then mret () else fail status.

(** [IREE_ASSIGN_OR_RETURN(lhs, expr)] of [iree/base/status_cc.h]. *)
Definition IREE_ASSIGN_OR_RETURN {A} (rexpr : StatusOr A) : Run A :=
  match rexpr with
  | Value a => mret a
  | Error status => fail status
  end.

(** An unchecked access of the C++ code (an index into a vector, a
    dereference of a reference): undefined when there is nothing there. *)
Definition defined {A} (access : option A) : Run A :=
  match access with
  | Some a => mret a
  | None => (Undefined, [])
  end.

(** Modelled from the spec: the macro [CUDNN_RETURN_IF_ERROR] of
    [status_util.h] is missing; a native call that reports an error is
    mapped to a status carrying the native error, which is returned. *)
Definition CUDNN_RETURN_IF_ERROR (result : Z) (name : string) : Run unit :=
  if decide (result = CUDNN_STATUS_SUCCESS) then mret ()
  else fail (openxla_cudnn_status_to_status result name).

(** Modelled from the spec: the macro [CUDNN_STATUS_CHECK_OK] of
    [status_util.h] is missing; a failed native teardown is checked and
    is fatal to the process. *)
Definition CUDNN_STATUS_CHECK_OK (result : Z) : Run unit :=
  if decide (result = CUDNN_STATUS_SUCCESS) then mret ()
  else (Aborted, []).

(** ** Module state (lines 34-65) *)

Record CuDNNModuleState := {
  syms_ : openxla_cudnn_dynamic_symbols_t;
  handle_ : cudnnHandle_t
}.

(** [CuDNNModuleState::~CuDNNModuleState] *)
Definition CuDNNModuleState_destructor (self : CuDNNModuleState) : Run unit :=
  result ← extern (EvCudnnDestroy (syms_ self) (handle_ self))
                  (cudnnDestroy (syms_ self) (handle_ self));
  CUDNN_STATUS_CHECK_OK result.

(** ** ToCudnnDataType (lines 67-71) *)

Definition ToCudnnDataType (dtype : Z) : StatusOr cudnnDataType_t :=
  if ((dtype <? CUDNN_DATA_FLOAT) || (dtype >? CUDNN_DATA_FAST_FLOAT_FOR_FP8))%Z
  then Error (Status kInvalidArgument "unsupported data type")
  else Value dtype.

(** ** LoadI64Vec (lines 73-82)

    The loop runs while [i < vector.size()]; the model recurses on
    [vector.size() - i]. *)

Fixpoint LoadI64Vec_loop (vm_list : iree_vm_list_t) (remaining i : nat)
    (vector : list Z) : Run (list Z) :=
  match remaining with
  | O => mret vector
  | S remaining' =>
      '(status, value) ← extern
          (EvListGetValueAs vm_list i IREE_VM_VALUE_TYPE_I64)
          (iree_vm_list_get_value_as vm_list i IREE_VM_VALUE_TYPE_I64);
      _ ← IREE_RETURN_IF_ERROR status;
      vector' ← defined (vector_store vector i (i64 value));
      LoadI64Vec_loop vm_list remaining' (S i) vector'
  end.

Definition LoadI64Vec (vm_list : iree_vm_list_t) : Run (list Z) :=
  size ← extern (EvListSize vm_list) (iree_vm_list_size vm_list);
  let vector := replicate size 0%Z in
  LoadI64Vec_loop vm_list (length vector) 0 vector.

(** ** CreateTensorArg (lines 91-99)

    [&*dims] dereferences the list reference without a check: on a null
    reference the behaviour is undefined. *)

Definition CreateTensorArg (self : CuDNNModuleState) (dtype : Z)
    (dims : vm_ref iree_vm_list_t) (uid alignment : Z)
    : Run (vm_ref (CuDNNTensor cudnn_frontend_Tensor)) :=
  data_type ← IREE_ASSIGN_OR_RETURN (ToCudnnDataType dtype);
  vm_list ← defined dims;
  dimensions ← LoadI64Vec vm_list;
  strides ← defined (GetRowMajorStrides dimensions);
  created ← extern
    (EvArgTensorCreate (syms_ self) dimensions strides uid data_type alignment)
    (CuDNNArgTensor_Create (syms_ self) dimensions strides uid data_type
                           alignment);
  IREE_ASSIGN_OR_RETURN created.

(** ** PrintTensorDebug (lines 101-107)

    The [static_cast] to [CuDNNArgTensor*] is unchecked: the member
    access that follows is defined only when the reference is not null
    and points to an argument tensor. *)

Definition newline : string := String "010"%char EmptyString.

Definition PrintTensorDebug (self : CuDNNModuleState)
    (tensor : vm_ref (CuDNNTensor cudnn_frontend_Tensor)) : Run unit :=
  match tensor with
  | Some (CuDNNArgTensor arg) =>
      let desc := describe arg in
      _ ← extern (EvStderr ("CuDNNArgTensor: " +:+ desc +:+ newline)) ();
      mret ()
  | Some CuDNNOtherTensor => (Undefined, [])
  | None => (Undefined, [])
  end.

(** ** CreateState (lines 147-163)

    The fields [device_] and [cuda_ctx_] of the module are not read. *)

Definition CreateState (host_allocator : iree_allocator_t)
    : Run CuDNNModuleState :=
  '(status, syms) ← extern (EvSymbolsInitialize host_allocator)
      (openxla_cudnn_dynamic_symbols_initialize host_allocator);
  if negb (iree_status_is_ok status) then fail status else
  '(result, handle) ← extern (EvCudnnCreate syms) (cudnnCreate syms);
  _ ← CUDNN_RETURN_IF_ERROR result "cudnnCreate";
  mret {| syms_ := syms; handle_ := handle |}.

(** The owner of the [std::unique_ptr] that [CreateState] returns runs
    the destructor of the state once, when it lets go of it; a failed
    [CreateState] hands out no state, so that there is nothing to run. *)
Definition CreateState_then_release (host_allocator : iree_allocator_t)
    : Run unit :=
  state ← CreateState host_allocator;
  CuDNNModuleState_destructor state.

(** ** RegisterType (lines 171-181)

    The descriptor is a global that the function updates in place: it is
    passed in and handed back next to the returned status. *)

Definition RegisterType (T : Type) `{!RefObject iree_vm_ref_destroy_t T}
    (descriptor : descriptor_t) (name : string)
    : (iree_status_t * descriptor_t) * list Event :=
  if decide (type descriptor = IREE_VM_REF_TYPE_NULL) then
    let descriptor :=
      {| destroy := destroy descriptor;
         offsetof_counter := offsetof_counter descriptor;
         type_name := name;
         type := type descriptor |} in
    let descriptor :=
      {| destroy := destroy descriptor;
         offsetof_counter := T_offsetof_counter T;
         type_name := type_name descriptor;
         type := type descriptor |} in
    let descriptor :=
      {| destroy := Some (T_DirectDestroy T);
         offsetof_counter := offsetof_counter descriptor;
         type_name := type_name descriptor;
         type := type descriptor |} in
    (iree_vm_ref_register_type descriptor, [EvRefRegisterType descriptor])
  else ((iree_ok_status, descriptor), []).

(** ** iree_custom_module_cudnn_register_types (lines 197-202)

    The [instance] argument is not used. The global
    [cudnn_tensor_descriptor] is passed in and handed back, as for
    [RegisterType]. *)

Definition iree_custom_module_cudnn_register_types
    `{!RefObject iree_vm_ref_destroy_t (CuDNNTensor cudnn_frontend_Tensor)}
    (cudnn_tensor_descriptor : descriptor_t)
    : (iree_status_t * descriptor_t) * list Event :=
  let '((status, descriptor), events) :=
    RegisterType (CuDNNTensor cudnn_frontend_Tensor) cudnn_tensor_descriptor
                 "cudnn.tensor" in
  if iree_status_is_ok status then ((iree_ok_status, descriptor), events)
  else ((status, descriptor), events).

(** ** Vocabulary of the statements *)

(** Reading element [i] of a list as a 64-bit integer. *)
Definition read_i64 (vm_list : iree_vm_list_t) (i : nat)
    : iree_status_t * iree_vm_value_t :=
  iree_vm_list_get_value_as vm_list i IREE_VM_VALUE_TYPE_I64.

Definition readable (vm_list : iree_vm_list_t) (i : nat) : Prop :=
  iree_status_is_ok (read_i64 vm_list i).1 = true.

(** Element [k] is the first one that cannot be read. *)
Definition first_unreadable (vm_list : iree_vm_list_t) (k : nat) : Prop :=
  k < iree_vm_list_size vm_list
  ∧ (∀ i, i < k → readable vm_list i)
  ∧ ¬ readable vm_list k.

(** The element reads of the indices [i, i + 1, ..., i + count - 1], in
    this order. *)
Definition element_reads (vm_list : iree_vm_list_t) (i count : nat)
    : list Event :=
  (λ j, EvListGetValueAs vm_list j IREE_VM_VALUE_TYPE_I64) <$> seq i count.

(** The dtype codes that [ToCudnnDataType] accepts. *)
Definition valid_dtype (dtype : Z) : Prop :=
  (CUDNN_DATA_FLOAT <= dtype <= CUDNN_DATA_FAST_FLOAT_FOR_FP8)%Z.

Definition count_events (kind : Event → bool) (events : list Event) : nat :=
  length (filter (λ e, kind e = true) events).

(** Every element of the list can be read as a 64-bit integer. *)
Definition all_readable (vm_list : iree_vm_list_t) : Prop :=
  ∀ i, i < iree_vm_list_size vm_list → readable vm_list i.

(** The elements of the list, each read as a 64-bit integer. *)
Definition elements_i64 (vm_list : iree_vm_list_t) : list Z :=
  (λ j, i64 (read_i64 vm_list j).2) <$> seq 0 (iree_vm_list_size vm_list).

(** A [StatusOr] as the outcome of the function that returns it. *)
Definition returned {A} (result : StatusOr A) : Outcome A :=
  match result with
  | Value a => Ok a
  | Error status => Failed status
  end.

(** How often a character occurs in a text. *)
Fixpoint count_char (c : ascii) (text : string) : nat :=
  match text with
  | EmptyString => 0
  | String a rest => (if Ascii.eqb a c then 1 else 0) + count_char c rest
  end.

End CuDNN.

(** ** A small instance of the externals, for evaluation

    VM lists hold 64-bit integers and references; reading a reference as an
    integer fails. The loader and the native calls answer what the instance
    is built with. *)

Module Test.
Inductive element := I64Element (z : Z) | RefElement.

Definition no_value : iree_vm_value_t :=
  {| value_type := IREE_VM_VALUE_TYPE_NONE; i64 := 0 |}.

Definition list_get_value_as (vm_list : list element) (i : nat)
    (value_type : iree_vm_value_type_t) : iree_status_t * iree_vm_value_t :=
  match vm_list !! i with
  | Some (I64Element z) =>
      (iree_ok_status, {| value_type := IREE_VM_VALUE_TYPE_I64; i64 := z |})
  | Some RefElement =>
      (Status kInvalidArgument "variant is not a value type", no_value)
  | None => (Status kOutOfRange "index out of bounds", no_value)
  end.

Record tensor := {
  tensor_dim : list Z; tensor_stride : list Z; tensor_id : Z;
  tensor_data_type : Z; tensor_alignment : Z
}.

Definition register_type (descriptor : iree_vm_ref_type_descriptor_t unit)
    : iree_status_t * iree_vm_ref_type_descriptor_t unit :=
  (iree_ok_status,
   {| destroy := destroy descriptor;
      offsetof_counter := offsetof_counter descriptor;
      type_name := type_name descriptor;
      type := 1 |}).

Definition externals (loader : iree_status_t) (create_result destroy_result : Z)
    : Externals :=
  {| iree_vm_list_t := list element;
     iree_vm_list_size := length;
     iree_vm_list_get_value_as := list_get_value_as;
     iree_vm_ref_destroy_t := unit;
     IREE_VM_REF_TYPE_NULL := 0;
     iree_vm_ref_register_type := register_type;
     iree_allocator_t := unit;
     CUDNN_DATA_FLOAT := 0;
     CUDNN_DATA_FAST_FLOAT_FOR_FP8 := 14;
     CUDNN_STATUS_SUCCESS := 0;
     cudnnHandle_t := nat;
     openxla_cudnn_dynamic_symbols_t := unit;
     openxla_cudnn_dynamic_symbols_initialize := λ _, (loader, ());
     cudnnCreate := λ _, (create_result, 1%nat);
     cudnnDestroy := λ _ _, destroy_result;
     openxla_cudnn_status_to_status := λ _ name, Status kInternal name;
     cudnn_frontend_Tensor := tensor;
     describe := λ _, "CUDNN_BACKEND_TENSOR_DESCRIPTOR";
     CuDNNArgTensor_Create := λ _ dimensions strides uid data_type alignment,
       Value (Some (CuDNNArgTensor
         {| tensor_dim := dimensions; tensor_stride := strides;
            tensor_id := uid; tensor_data_type := data_type;
            tensor_alignment := alignment |})) |}.

(** Everything loads and every native call succeeds. *)
Definition healthy : Externals := externals iree_ok_status 0 0.

Definition state : @CuDNNModuleState healthy :=
  @Build_CuDNNModuleState healthy () 1%nat.

Global Instance tensor_ref_object : RefObject unit (CuDNNTensor tensor) :=
  {| T_offsetof_counter := 8; T_DirectDestroy := () |}.

Definition unregistered : iree_vm_ref_type_descriptor_t unit :=
  {| destroy := None; offsetof_counter := 0; type_name := EmptyString;
     type := 0 |}.

(** The loader does not find the native library. *)
Definition no_library : Externals :=
  externals (Status kNotFound "libcudnn.so not found") 0 0.

(** The library loads, but [cudnnCreate] reports an error code. *)
Definition create_fails : Externals := externals iree_ok_status 1 0.

Definition dims_2_3_4 : list element :=
  [I64Element 2; I64Element 3; I64Element 4].

(** A dims list whose element 1 is a reference, not an integer. *)
Definition dims_with_ref : list element :=
  [I64Element 2; RefElement; I64Element 4].

Definition arg_tensor : tensor :=
  {| tensor_dim := [2; 3; 4]%Z; tensor_stride := [6; 3; 1]%Z;
     tensor_id := 7; tensor_data_type := 0; tensor_alignment := 16 |}.

(** The type registry of the VM is full: registration fails and leaves
    the descriptor as it was handed over. *)
Definition registry_full : Externals :=
  {| iree_vm_list_t := list element;
     iree_vm_list_size := length;
     iree_vm_list_get_value_as := list_get_value_as;
     iree_vm_ref_destroy_t := unit;
     IREE_VM_REF_TYPE_NULL := 0;
     iree_vm_ref_register_type := λ descriptor,
       (Status kResourceExhausted "too many user-defined types", descriptor);
     iree_allocator_t := unit;
     CUDNN_DATA_FLOAT := 0;
     CUDNN_DATA_FAST_FLOAT_FOR_FP8 := 14;
     CUDNN_STATUS_SUCCESS := 0;
     cudnnHandle_t := nat;
     openxla_cudnn_dynamic_symbols_t := unit;
     openxla_cudnn_dynamic_symbols_initialize := λ _, (iree_ok_status, ());
     cudnnCreate := λ _, (0%Z, 1%nat);
     cudnnDestroy := λ _ _, 0%Z;
     openxla_cudnn_status_to_status := λ _ name, Status kInternal name;
     cudnn_frontend_Tensor := tensor;
     describe := λ _, "CUDNN_BACKEND_TENSOR_DESCRIPTOR";
     CuDNNArgTensor_Create := λ _ _ _ _ _ _, Value None |}.
End Test.

(** * Properties *)

(** ** Machine integers *)

Lemma Int64_wrap_in_range z : Int64.in_range z → Int64.wrap z = z.
Proof.
  unfold Int64.in_range, Int64.wrap, Int64.of_unsigned, SizeT.wrap,
    SizeT.modulus, Int64.half_modulus.
  intros Hz.
  destruct (Z_lt_le_dec z 0) as [Hneg | Hpos].
  - replace (z mod 2 ^ 64)%Z with (z + 2 ^ 64)%Z.
    + destruct (Z.ltb_spec (z + 2 ^ 64) (2 ^ 63)); lia.
    + apply Z.mod_unique with (q := (-1)%Z); lia.
  - rewrite Z.mod_small by lia.
    destruct (Z.ltb_spec z (2 ^ 63)); lia.
Qed.

(** The loop of [GetRowMajorStrides] starts at [size - 2] for the sizes a
    vector can have, and at a negative index for the sizes 0 and 1. *)
Lemma GetRowMajorStrides_start_small (size : nat) :
  (Z.of_nat size < 2 ^ 63)%Z →
  GetRowMajorStrides_start size = (Z.of_nat size - 2)%Z.
Proof.
  intros Hsize.
  unfold GetRowMajorStrides_start, SizeT.sub.
  apply Int64_wrap_in_range.
  unfold Int64.in_range, Int64.half_modulus. lia.
Qed.

(** Whatever the size, the loop runs fewer times than the vector is long. *)
Lemma GetRowMajorStrides_iterations (size : nat) :
  let iterations := Z.to_nat (GetRowMajorStrides_start size + 1) in
  iterations = 0 ∨ iterations < size.
Proof.
  cbv zeta.
  unfold GetRowMajorStrides_start, SizeT.sub, SizeT.wrap, Int64.of_unsigned,
    Int64.half_modulus, SizeT.modulus.
  destruct (Z_lt_le_dec (Z.of_nat size) 2) as [Hsmall | Hbig].
  - left.
    replace ((Z.of_nat size - 2) mod 2 ^ 64)%Z
      with (Z.of_nat size - 2 + 2 ^ 64)%Z
      by (apply Z.mod_unique with (q := (-1)%Z); lia).
    destruct (Z.ltb_spec (Z.of_nat size - 2 + 2 ^ 64) (2 ^ 63)); lia.
  - right.
    assert (0 <= (Z.of_nat size - 2) mod 2 ^ 64 <= Z.of_nat size - 2)%Z
      as Hmod by (split; [apply Z.mod_pos_bound | apply Z.mod_le]; lia).
    generalize dependent ((Z.of_nat size - 2) mod 2 ^ 64)%Z. intros u Hu.
    destruct (Z.ltb_spec u (2 ^ 63)); lia.
Qed.

(** ** GetRowMajorStrides *)

(** The loop never leaves the vectors: it returns, keeps the length and the
    entries from [iterations] on, and makes every entry below [iterations]
    the product of the dimension at the same index and the next stride. *)
Lemma GetRowMajorStrides_loop_spec (dims : list Z) (iterations : nat) :
  ∀ strides : list Z,
    length strides = length dims →
    iterations = 0 ∨ iterations < length dims →
    ∃ result : list Z,
      GetRowMajorStrides_loop dims iterations strides = Some result
      ∧ length result = length dims
      ∧ (∀ j, iterations ≤ j → result !! j = strides !! j)
      ∧ (∀ j, j < iterations →
           ∃ d s, dims !! j = Some d ∧ result !! (S j) = Some s
                  ∧ result !! j = Some (Int64.mul d s)).
Proof.
  induction iterations as [| i IH]; intros strides Hlen Hiter.
  - exists strides. repeat split; auto. intros j Hj. lia.
  - assert (S i < length dims) as Hi by lia.
    destruct (lookup_lt_is_Some_2 dims i) as [d Hd]; [lia |].
    destruct (lookup_lt_is_Some_2 strides (S i)) as [s Hs]; [lia |].
    cbn [GetRowMajorStrides_loop]. unfold vector_at, vector_store.
    rewrite Hd, Hs. cbn.
    rewrite decide_True by lia.
    destruct (IH (<[i := Int64.mul d s]> strides))
      as (result & Hrun & Hlen' & Hkeep & Hrec).
    { rewrite length_insert. exact Hlen. }
    { right. lia. }
    exists result. split; [exact Hrun |]. split; [exact Hlen' |]. split.
    + intros j Hj. rewrite Hkeep by lia. apply list_lookup_insert_ne. lia.
    + intros j Hj. destruct (decide (j = i)) as [-> | Hne].
      * exists d, s. split; [exact Hd |]. split.
        -- rewrite Hkeep by lia. rewrite list_lookup_insert_ne by lia. exact Hs.
        -- rewrite Hkeep by lia. apply list_lookup_insert_eq. lia.
      * apply Hrec. lia.
Qed.

(** [GetRowMajorStrides] is total and its result is as long as its input. *)
Lemma GetRowMajorStrides_total (dims : list Z) :
  ∃ strides, GetRowMajorStrides dims = Some strides
             ∧ length strides = length dims.
Proof.
  unfold GetRowMajorStrides.
  destruct (GetRowMajorStrides_loop_spec dims
              (Z.to_nat (GetRowMajorStrides_start (length dims) + 1))
              (replicate (length dims) 1%Z))
    as (result & Hrun & Hlen & _).
  - apply length_replicate.
  - apply GetRowMajorStrides_iterations.
  - exists result. auto.
Qed.

(** What the code computes: the last stride is 1, and the stride at [i] is
    the dimension at [i] (not at [i + 1]) times the stride at [i + 1]. *)
Lemma GetRowMajorStrides_recurrence (dims : list Z) :
  (Z.of_nat (length dims) < 2 ^ 63)%Z →
  ∃ strides,
    GetRowMajorStrides dims = Some strides
    ∧ length strides = length dims
    ∧ (∀ i, S i = length dims → strides !! i = Some 1%Z)
    ∧ (∀ i d s, dims !! i = Some d → strides !! (S i) = Some s →
         strides !! i = Some (Int64.mul d s)).
Proof.
  intros Hsize. unfold GetRowMajorStrides.
  rewrite GetRowMajorStrides_start_small by exact Hsize.
  destruct (GetRowMajorStrides_loop_spec dims
              (Z.to_nat (Z.of_nat (length dims) - 2 + 1))
              (replicate (length dims) 1%Z))
    as (result & Hrun & Hlen & Hkeep & Hrec).
  - apply length_replicate.
  - lia.
  - exists result. split; [exact Hrun |]. split; [exact Hlen |]. split.
    + intros i Hi. rewrite Hkeep by lia.
      apply lookup_replicate_2. lia.
    + intros i d s Hd Hs.
      assert (S i < length dims) as Hi.
      { rewrite <- Hlen. eapply lookup_lt_Some. exact Hs. }
      destruct (Hrec i) as (d' & s' & Hd' & Hs' & Hi'); [lia |].
      congruence.
Qed.

(** C1 (the code departs from the claim). On the dimensions [2, 3, 4] the
    row-major rule of the claim gives the strides [12, 4, 1], but
    [GetRowMajorStrides] multiplies by [dims[i]] where the rule has
    [dims[i + 1]] and returns [6, 3, 1]; these are the strides that
    [CreateTensorArg] hands to the native tensor constructor. *)
Theorem GetRowMajorStrides_2_3_4 :
  GetRowMajorStrides [2; 3; 4]%Z = Some [6; 3; 1]%Z
  ∧ row_major_rule [2; 3; 4]%Z = [12; 4; 1]%Z
  ∧ filter (λ e, is_tensor_create e = true)
      (CreateTensorArg (Ext := Test.healthy) Test.state 0%Z
         (Some Test.dims_2_3_4) 7%Z 16%Z).2
    = [EvArgTensorCreate (Ext := Test.healthy) () [2; 3; 4]%Z [6; 3; 1]%Z
         7%Z 0%Z 16%Z].
Proof. repeat split; vm_compute; reflexivity. Qed.

(** C3. [GetRowMajorStrides] returns [1] for every sequence of a single
    dimension and the empty sequence for the empty one, and in every case
    it returns a stride sequence as long as the dimension sequence. *)
Theorem GetRowMajorStrides_degenerate :
  (∀ d : Z, GetRowMajorStrides [d] = Some [1%Z])
  ∧ GetRowMajorStrides [] = Some []
  ∧ (∀ dims : list Z,
       ∃ strides, GetRowMajorStrides dims = Some strides
                  ∧ length strides = length dims).
Proof.
  split; [| split].
  - intros d. reflexivity.
  - reflexivity.
  - apply GetRowMajorStrides_total.
Qed.

(** ** The functions of the module, for every choice of the externals *)

Section Properties.
Context `{Ext : Externals}.

Lemma bind_extern {A B} (e : Event) (result : A) (f : A → Run B) :
  extern e result ≫= f = ((f result).1, e :: (f result).2).
Proof.
  unfold mbind, Run_bind, run_bind, extern. destruct (f result); reflexivity.
Qed.

Lemma bind_ret {A B} (a : A) (f : A → Run B) : mret a ≫= f = f a.
Proof.
  unfold mbind, Run_bind, run_bind, mret, Run_ret, run_ret.
  destruct (f a); reflexivity.
Qed.

Lemma bind_fail {A B} (status : iree_status_t) (f : A → Run B) :
  fail status ≫= f = fail status.
Proof. reflexivity. Qed.

Lemma element_reads_cons (vm_list : iree_vm_list_t) (i count : nat) :
  element_reads vm_list i (S count)
  = EvListGetValueAs vm_list i IREE_VM_VALUE_TYPE_I64
      :: element_reads vm_list (S i) count.
Proof. reflexivity. Qed.

(** *** LoadI64Vec *)

(** When the elements from [i] on can all be read, the loop reads them in
    ascending order and stores each at its index. *)
Lemma LoadI64Vec_loop_ok (vm_list : iree_vm_list_t) (remaining : nat) :
  ∀ (i : nat) (vector : list Z),
    length vector = i + remaining →
    (∀ j, i ≤ j < i + remaining → readable vm_list j) →
    LoadI64Vec_loop vm_list remaining i vector
    = (Ok (take i vector
           ++ ((λ j, i64 (read_i64 vm_list j).2) <$> seq i remaining)),
       element_reads vm_list i remaining).
Proof.
  induction remaining as [| remaining IH]; intros i vector Hlen Hread.
  - cbn. rewrite app_nil_r, take_ge by lia. reflexivity.
  - cbn [LoadI64Vec_loop]. rewrite bind_extern.
    pose proof (Hread i ltac:(lia)) as Hi. unfold readable, read_i64 in Hi.
    fold (read_i64 vm_list i) in *.
    destruct (read_i64 vm_list i) as [status value] eqn:Hget.
    cbn [fst snd] in *. unfold IREE_RETURN_IF_ERROR. rewrite Hi, bind_ret.
    unfold vector_store. rewrite decide_True by lia.
    cbn [defined]. rewrite bind_ret.
    rewrite IH.
    + cbn [fst snd]. rewrite element_reads_cons. f_equal. f_equal.
      rewrite (take_S_r _ _ (i64 value)) by (apply list_lookup_insert_eq; lia).
      rewrite take_insert_ge by lia.
      rewrite <- app_assoc. cbn. rewrite Hget. reflexivity.
    + rewrite length_insert. lia.
    + intros j Hj. apply Hread. lia.
Qed.

(** When element [k] is the first that cannot be read, the loop stops
    there with the status of that read. *)
Lemma LoadI64Vec_loop_error (vm_list : iree_vm_list_t) (remaining : nat) :
  ∀ (i k : nat) (vector : list Z),
    length vector = i + remaining →
    i ≤ k < i + remaining →
    (∀ j, i ≤ j < k → readable vm_list j) →
    ¬ readable vm_list k →
    LoadI64Vec_loop vm_list remaining i vector
    = (Failed (read_i64 vm_list k).1, element_reads vm_list i (S k - i)).
Proof.
  induction remaining as [| remaining IH]; intros i k vector Hlen Hk Hread Hbad.
  - lia.
  - cbn [LoadI64Vec_loop]. rewrite bind_extern.
    fold (read_i64 vm_list i).
    destruct (decide (i = k)) as [-> | Hne].
    + unfold readable in Hbad. apply not_true_is_false in Hbad.
      destruct (read_i64 vm_list k) as [status value] eqn:Hget.
      cbn [fst snd] in *. unfold IREE_RETURN_IF_ERROR. rewrite Hbad, bind_fail.
      replace (S k - k) with 1 by lia. reflexivity.
    + pose proof (Hread i ltac:(lia)) as Hi. unfold readable in Hi.
      destruct (read_i64 vm_list i) as [status value] eqn:Hget.
      cbn [fst snd] in *. unfold IREE_RETURN_IF_ERROR. rewrite Hi, bind_ret.
      unfold vector_store. rewrite decide_True by lia.
      cbn [defined]. rewrite bind_ret.
      rewrite (IH (S i) k).
      * cbn [fst snd]. replace (S k - i) with (S (S k - S i)) by lia.
        rewrite element_reads_cons. reflexivity.
      * rewrite length_insert. lia.
      * lia.
      * intros j Hj. apply Hread. lia.
      * exact Hbad.
Qed.

(** With all elements readable, [LoadI64Vec] returns them in order; the
    list is asked for its size once and then read front to back. *)
Lemma LoadI64Vec_ok (vm_list : iree_vm_list_t) :
  (∀ i, i < iree_vm_list_size vm_list → readable vm_list i) →
  LoadI64Vec vm_list
  = (Ok ((λ j, i64 (read_i64 vm_list j).2)
           <$> seq 0 (iree_vm_list_size vm_list)),
     EvListSize vm_list :: element_reads vm_list 0 (iree_vm_list_size vm_list)).
Proof.
  intros Hread. unfold LoadI64Vec. rewrite bind_extern.
  rewrite length_replicate.
  rewrite LoadI64Vec_loop_ok.
  - reflexivity.
  - apply length_replicate.
  - intros j Hj. apply Hread. lia.
Qed.

Lemma LoadI64Vec_error (vm_list : iree_vm_list_t) (k : nat) :
  first_unreadable vm_list k →
  LoadI64Vec vm_list
  = (Failed (read_i64 vm_list k).1,
     EvListSize vm_list :: element_reads vm_list 0 (S k)).
Proof.
  intros (Hk & Hread & Hbad). unfold LoadI64Vec. rewrite bind_extern.
  rewrite length_replicate.
  rewrite (LoadI64Vec_loop_error _ _ 0 k).
  - cbn [fst snd]. replace (S k - 0) with (S k) by lia. reflexivity.
  - apply length_replicate.
  - lia.
  - intros j Hj. apply Hread. lia.
  - exact Hbad.
Qed.

(** C10. For a list whose elements are all readable as 64-bit integers,
    [LoadI64Vec] succeeds with a vector as long as the list whose [i]-th
    entry is the [i]-th element read as [int64]; the elements are read in
    ascending index order; and when some element cannot be read, the
    function returns the status of the first failing read and reads no
    element after it. *)
Theorem LoadI64Vec_spec (vm_list : iree_vm_list_t) :
  ((∀ i, i < iree_vm_list_size vm_list → readable vm_list i) →
     ∃ vector,
       LoadI64Vec vm_list
       = (Ok vector,
          EvListSize vm_list
            :: element_reads vm_list 0 (iree_vm_list_size vm_list))
       ∧ length vector = iree_vm_list_size vm_list
       ∧ ∀ i, i < iree_vm_list_size vm_list →
           vector !! i = Some (i64 (read_i64 vm_list i).2))
  ∧ (∀ k, first_unreadable vm_list k →
       LoadI64Vec vm_list
       = (Failed (read_i64 vm_list k).1,
          EvListSize vm_list :: element_reads vm_list 0 (S k))).
Proof.
  split.
  - intros Hread. eexists. split; [apply LoadI64Vec_ok, Hread |]. split.
    + rewrite length_fmap, length_seq. reflexivity.
    + intros i Hi. rewrite list_lookup_fmap, lookup_seq_lt by exact Hi.
      reflexivity.
  - apply LoadI64Vec_error.
Qed.

(** *** ToCudnnDataType and CreateTensorArg *)

Lemma ToCudnnDataType_valid (dtype : Z) :
  valid_dtype dtype → ToCudnnDataType dtype = Value dtype.
Proof.
  unfold valid_dtype, ToCudnnDataType. intros Hvalid.
  rewrite Z.gtb_ltb.
  destruct (Z.ltb_spec dtype CUDNN_DATA_FLOAT);
    destruct (Z.ltb_spec CUDNN_DATA_FAST_FLOAT_FOR_FP8 dtype);
    cbn; (reflexivity || lia).
Qed.

Lemma ToCudnnDataType_invalid (dtype : Z) :
  ¬ valid_dtype dtype →
  ToCudnnDataType dtype
  = Error (Status kInvalidArgument "unsupported data type").
Proof.
  unfold valid_dtype, ToCudnnDataType. intros Hinvalid.
  rewrite Z.gtb_ltb.
  destruct (Z.ltb_spec dtype CUDNN_DATA_FLOAT);
    destruct (Z.ltb_spec CUDNN_DATA_FAST_FLOAT_FOR_FP8 dtype);
    cbn; (reflexivity || lia).
Qed.

(** An unsupported dtype ends the call at its first statement. *)
Lemma CreateTensorArg_invalid_dtype (self : CuDNNModuleState) (dtype : Z)
    (dims : vm_ref iree_vm_list_t) (uid alignment : Z) :
  ¬ valid_dtype dtype →
  CreateTensorArg self dtype dims uid alignment
  = (Failed (Status kInvalidArgument "unsupported data type"), []).
Proof.
  intros Hinvalid. unfold CreateTensorArg.
  rewrite ToCudnnDataType_invalid by exact Hinvalid. reflexivity.
Qed.

Lemma count_events_element_reads (kind : Event → bool)
    (vm_list : iree_vm_list_t) (i count : nat) :
  kind (EvListGetValueAs vm_list 0 IREE_VM_VALUE_TYPE_I64) = false →
  (∀ j, kind (EvListGetValueAs vm_list j IREE_VM_VALUE_TYPE_I64)
        = kind (EvListGetValueAs vm_list 0 IREE_VM_VALUE_TYPE_I64)) →
  count_events kind (element_reads vm_list i count) = 0.
Proof.
  intros Hkind Hsame. unfold count_events, element_reads.
  revert i. induction count as [| count IH]; intros i; [reflexivity |].
  cbn [seq fmap list_fmap]. rewrite filter_cons_False.
  - apply IH.
  - rewrite Hsame, Hkind. discriminate.
Qed.

(** C2. For every dtype code outside the closed range of data-type
    codes, [CreateTensorArg] returns an invalid-argument status with the
    message [unsupported data type], and the native tensor constructor
    is not called. *)
Theorem CreateTensorArg_unsupported_dtype (self : CuDNNModuleState)
    (dtype : Z) (dims : vm_ref iree_vm_list_t) (uid alignment : Z) :
  ¬ valid_dtype dtype →
  ∃ status events,
    CreateTensorArg self dtype dims uid alignment = (Failed status, events)
    ∧ code status = kInvalidArgument
    ∧ message status = "unsupported data type"
    ∧ count_events is_tensor_create events = 0.
Proof.
  intros Hinvalid.
  exists (Status kInvalidArgument "unsupported data type"), [].
  rewrite CreateTensorArg_invalid_dtype by exact Hinvalid.
  repeat split.
Qed.

(** C9. The dtype is validated before the dims list is touched: for
    every dtype code out of range and every dims reference (to whatever
    list, or null), the call returns
    the invalid-argument status and has made no call at all by then, so
    neither the size query nor an element read of the list has
    happened. *)
Theorem CreateTensorArg_dtype_before_dims (self : CuDNNModuleState)
    (dtype : Z) (dims : vm_ref iree_vm_list_t) (uid alignment : Z) :
  ¬ valid_dtype dtype →
  (CreateTensorArg self dtype dims uid alignment).1
    = Failed (Status kInvalidArgument "unsupported data type")
  ∧ (CreateTensorArg self dtype dims uid alignment).2 = []
  ∧ count_events is_list_access
      (CreateTensorArg self dtype dims uid alignment).2 = 0.
Proof.
  intros Hinvalid.
  rewrite CreateTensorArg_invalid_dtype by exact Hinvalid.
  repeat split.
Qed.

(** C7 (as amended). Once the dtype has passed validation, when element
    [k] of a dims list (the reference not being null) is the first that is
    not readable as a 64-bit integer, [CreateTensorArg] returns the error
    of that list access, propagated unchanged: it is not OK, it has the
    kind and the message that the access reported, so that it is of the
    invalid-argument or out-of-range kind whenever the access reports one
    of these. The list has been asked for its size and for the elements
    [0] to [k], no tensor is produced and the native tensor constructor is
    not called. *)
Theorem CreateTensorArg_unreadable_dims (self : CuDNNModuleState)
    (dtype : Z) (dims : iree_vm_list_t) (uid alignment : Z) (k : nat) :
  valid_dtype dtype →
  first_unreadable dims k →
  ∃ status events,
    CreateTensorArg self dtype (Some dims) uid alignment
      = (Failed status, events)
    ∧ status = (read_i64 dims k).1
    ∧ iree_status_is_ok status = false
    ∧ (code (read_i64 dims k).1 = kInvalidArgument
       ∨ code (read_i64 dims k).1 = kOutOfRange →
       code status = kInvalidArgument ∨ code status = kOutOfRange)
    ∧ events = EvListSize dims :: element_reads dims 0 (S k)
    ∧ count_events is_tensor_create events = 0.
Proof.
  intros Hvalid Hfirst.
  exists (read_i64 dims k).1, (EvListSize dims :: element_reads dims 0 (S k)).
  split.
  { unfold CreateTensorArg.
    rewrite ToCudnnDataType_valid by exact Hvalid.
    cbn [IREE_ASSIGN_OR_RETURN defined]. rewrite !bind_ret.
    rewrite (LoadI64Vec_error dims k) by exact Hfirst. reflexivity. }
  split; [reflexivity |]. split.
  { destruct Hfirst as (_ & _ & Hbad). apply not_true_is_false, Hbad. }
  split; [intros Hkind; exact Hkind |]. split; [reflexivity |].
  unfold count_events.
  rewrite filter_cons_False by (cbn; discriminate).
  apply (count_events_element_reads is_tensor_create); reflexivity.
Qed.

(** With a valid dtype and a fully readable list the native constructor
    is called once, with the loaded dimensions and the strides computed
    from them, and its result is the result of the call. *)
Lemma CreateTensorArg_ok (self : CuDNNModuleState) (dtype : Z)
    (dims : iree_vm_list_t) (uid alignment : Z) (strides : list Z) :
  let dimensions :=
    ((λ j, i64 (read_i64 dims j).2) <$> seq 0 (iree_vm_list_size dims)) in
  valid_dtype dtype →
  (∀ i, i < iree_vm_list_size dims → readable dims i) →
  GetRowMajorStrides dimensions = Some strides →
  CreateTensorArg self dtype (Some dims) uid alignment
  = ((IREE_ASSIGN_OR_RETURN
        (CuDNNArgTensor_Create (syms_ self) dimensions strides uid dtype
                               alignment)).1,
     EvListSize dims :: element_reads dims 0 (iree_vm_list_size dims)
       ++ [EvArgTensorCreate (syms_ self) dimensions strides uid dtype
                             alignment]).
Proof.
  intros dimensions Hvalid Hread Hstrides. unfold CreateTensorArg.
  rewrite ToCudnnDataType_valid by exact Hvalid.
  cbn [IREE_ASSIGN_OR_RETURN defined]. rewrite !bind_ret.
  rewrite LoadI64Vec_ok by exact Hread. fold dimensions.
  unfold mbind at 1, Run_bind, run_bind.
  rewrite Hstrides. cbn [defined]. rewrite bind_ret, bind_extern.
  destruct (CuDNNArgTensor_Create _ _ _ _ _ _); reflexivity.
Qed.

(** A null dims reference passes the dtype check and is then dereferenced:
    the code has no status for it. *)
Lemma CreateTensorArg_null_dims (self : CuDNNModuleState) (dtype : Z)
    (uid alignment : Z) :
  valid_dtype dtype →
  CreateTensorArg self dtype None uid alignment = (Undefined, []).
Proof.
  intros Hvalid. unfold CreateTensorArg.
  rewrite ToCudnnDataType_valid by exact Hvalid. reflexivity.
Qed.

(** *** PrintTensorDebug *)

Lemma count_char_app (c : ascii) (a b : string) :
  count_char c (a +:+ b) = count_char c a + count_char c b.
Proof.
  induction a as [| x a IH]; [reflexivity |].
  change (String x a +:+ b) with (String x (a +:+ b)).
  cbn [count_char]. rewrite IH. lia.
Qed.

(** C8. For every reference to an argument tensor, [PrintTensorDebug]
    returns the OK status, and all it does is write one text to [stderr]:
    the description of the tensor after the prefix [CuDNNArgTensor: ],
    closed by a newline, which is a single line when the description has
    no line break of its own. *)
Theorem PrintTensorDebug_arg_tensor (self : CuDNNModuleState)
    (arg : cudnn_frontend_Tensor) :
  PrintTensorDebug self (Some (CuDNNArgTensor arg))
    = (Ok (),
       [EvStderr ("CuDNNArgTensor: " +:+ describe arg +:+ newline)])
  ∧ (count_char "010" (describe arg) = 0 →
     count_char "010" ("CuDNNArgTensor: " +:+ describe arg +:+ newline) = 1).
Proof.
  split; [reflexivity |].
  intros Hdesc. rewrite !count_char_app, Hdesc. reflexivity.
Qed.

(** *** CreateState and the destructor of the state *)

(** The three ways through [CreateState]. *)
Lemma CreateState_cases (host_allocator : iree_allocator_t) :
  let loaded := openxla_cudnn_dynamic_symbols_initialize host_allocator in
  let created := cudnnCreate loaded.2 in
  CreateState host_allocator
  = if negb (iree_status_is_ok loaded.1) then
      (Failed loaded.1, [EvSymbolsInitialize host_allocator])
    else if decide (created.1 = CUDNN_STATUS_SUCCESS) then
      (Ok {| syms_ := loaded.2; handle_ := created.2 |},
       [EvSymbolsInitialize host_allocator; EvCudnnCreate loaded.2])
    else
      (Failed (openxla_cudnn_status_to_status created.1 "cudnnCreate"),
       [EvSymbolsInitialize host_allocator; EvCudnnCreate loaded.2]).
Proof.
  cbv zeta. unfold CreateState. rewrite bind_extern.
  destruct (openxla_cudnn_dynamic_symbols_initialize host_allocator)
    as [status syms].
  cbn [fst snd]. destruct (iree_status_is_ok status); [| reflexivity].
  cbn [negb]. rewrite bind_extern.
  destruct (cudnnCreate syms) as [result handle].
  cbn [fst snd]. unfold CUDNN_RETURN_IF_ERROR.
  destruct (decide (result = CUDNN_STATUS_SUCCESS)); reflexivity.
Qed.

Lemma CuDNNModuleState_destructor_events (self : CuDNNModuleState) :
  (CuDNNModuleState_destructor self).2
  = [EvCudnnDestroy (syms_ self) (handle_ self)].
Proof.
  unfold CuDNNModuleState_destructor. rewrite bind_extern.
  unfold CUDNN_STATUS_CHECK_OK.
  destruct (decide (_ = CUDNN_STATUS_SUCCESS)); reflexivity.
Qed.

(** C6. When the loading of the dynamic symbols fails, [CreateState]
    returns the failing status; the only call it has made is the one to
    the loader, so that [cudnnCreate] is not called, and no module state
    is returned. *)
Theorem CreateState_symbols_failure (host_allocator : iree_allocator_t) :
  iree_status_is_ok
    (openxla_cudnn_dynamic_symbols_initialize host_allocator).1 = false →
  CreateState host_allocator
    = (Failed (openxla_cudnn_dynamic_symbols_initialize host_allocator).1,
       [EvSymbolsInitialize host_allocator])
  ∧ count_events is_cudnn_create (CreateState host_allocator).2 = 0
  ∧ ∀ state, (CreateState host_allocator).1 ≠ Ok state.
Proof.
  intros Hload. rewrite CreateState_cases. cbv zeta. rewrite Hload.
  cbn [negb]. repeat split. discriminate.
Qed.

(** C5. The destructor of a module state makes exactly one native
    destroy call, on the handle that the state owns and through its own
    symbols. [CreateState] itself never destroys a handle. Over the life
    of what [CreateState] returns: when it fails (the symbols do not
    load, or the native create call fails) no destroy call is made, and
    when it succeeds the handle it created is destroyed exactly once. *)
Theorem native_handle_destroyed_once :
  (∀ self : CuDNNModuleState,
     (CuDNNModuleState_destructor self).2
     = [EvCudnnDestroy (syms_ self) (handle_ self)])
  ∧ (∀ host_allocator,
       count_events is_cudnn_destroy (CreateState host_allocator).2 = 0)
  ∧ (∀ host_allocator status,
       (CreateState host_allocator).1 = Failed status →
       count_events is_cudnn_destroy
         (CreateState_then_release host_allocator).2 = 0)
  ∧ (∀ host_allocator state,
       (CreateState host_allocator).1 = Ok state →
       handle_ state = (cudnnCreate (syms_ state)).2
       ∧ filter (λ e, is_cudnn_destroy e = true)
           (CreateState_then_release host_allocator).2
         = [EvCudnnDestroy (syms_ state) (handle_ state)]).
Proof.
  split; [apply CuDNNModuleState_destructor_events |].
  split; [| split].
  - intros host_allocator. rewrite CreateState_cases. cbv zeta.
    destruct (negb _); [reflexivity |].
    destruct (decide _); reflexivity.
  - intros host_allocator status.
    unfold CreateState_then_release.
    destruct (CreateState host_allocator) as [outcome events] eqn:Hrun.
    cbn [fst]. intros ->. cbn.
    replace events with (CreateState host_allocator).2
      by (rewrite Hrun; reflexivity).
    rewrite CreateState_cases. cbv zeta.
    destruct (negb _); [reflexivity |].
    destruct (decide _); reflexivity.
  - intros host_allocator state.
    unfold CreateState_then_release.
    rewrite CreateState_cases. cbv zeta.
    destruct (negb _); [discriminate |].
    destruct (decide _); [| discriminate].
    cbn [fst]. intros [= <-]. cbn [syms_ handle_]. split; [reflexivity |].
    unfold mbind, Run_bind, run_bind.
    set (loaded := openxla_cudnn_dynamic_symbols_initialize host_allocator).
    pose proof (CuDNNModuleState_destructor_events
                  {| syms_ := loaded.2; handle_ := (cudnnCreate loaded.2).2 |})
      as Hdestroy.
    destruct (CuDNNModuleState_destructor _) as [outcome events].
    cbn [snd syms_ handle_] in *. subst events. reflexivity.
Qed.

(** *** RegisterType *)

(** C4. [RegisterType] on a descriptor whose type is not the null
    sentinel returns the OK status, leaves the descriptor as it is and
    does not call the registration function of the VM; on a descriptor in
    the null state it sets the type name, the counter offset and the
    destroy callback and registers the populated descriptor with the VM,
    whose status it returns. Hence a call on a descriptor that an earlier
    call has left registered changes nothing. *)
Theorem RegisterType_idempotent (T : Type)
    `{!RefObject iree_vm_ref_destroy_t T}
    (descriptor : descriptor_t) (name : string) :
  (type descriptor ≠ IREE_VM_REF_TYPE_NULL →
     RegisterType T descriptor name = ((iree_ok_status, descriptor), []))
  ∧ (type descriptor = IREE_VM_REF_TYPE_NULL →
     let populated : descriptor_t :=
       {| destroy := Some (T_DirectDestroy T);
          offsetof_counter := T_offsetof_counter T;
          type_name := name;
          type := IREE_VM_REF_TYPE_NULL |} in
     RegisterType T descriptor name
     = (iree_vm_ref_register_type populated, [EvRefRegisterType populated]))
  ∧ (∀ name' : string,
       let registered := (RegisterType T descriptor name).1.2 in
       type registered ≠ IREE_VM_REF_TYPE_NULL →
       RegisterType T registered name' = ((iree_ok_status, registered), [])).
Proof.
  assert (∀ (d : descriptor_t) (n : string),
            type d ≠ IREE_VM_REF_TYPE_NULL →
            RegisterType T d n = ((iree_ok_status, d), [])) as Hnoop.
  { intros d n Hd. unfold RegisterType. rewrite decide_False by exact Hd.
    reflexivity. }
  split; [apply Hnoop |]. split.
  - intros Hnull. cbv zeta. unfold RegisterType.
    rewrite decide_True by exact Hnull. cbn. rewrite Hnull. reflexivity.
  - intros name'. cbv zeta. apply Hnoop.
Qed.

End Properties.

(** * The theorems at concrete inputs *)

Lemma CreateTensorArg_unsupported_dtype_witness :
  ∃ status events,
    CreateTensorArg (Ext := Test.healthy) Test.state 999
        (Some Test.dims_2_3_4) 7 16
      = (Failed status, events)
    ∧ code status = kInvalidArgument
    ∧ message status = "unsupported data type"
    ∧ count_events is_tensor_create events = 0.
Proof.
  apply (CreateTensorArg_unsupported_dtype (Ext := Test.healthy)).
  unfold valid_dtype. cbn. lia.
Defined.

Lemma CreateTensorArg_dtype_before_dims_witness :
  (CreateTensorArg (Ext := Test.healthy) Test.state (-1)
     (Some Test.dims_with_ref) 7 16).1
    = Failed (Status kInvalidArgument "unsupported data type")
  ∧ (CreateTensorArg (Ext := Test.healthy) Test.state (-1)
      (Some Test.dims_with_ref)
       7 16).2 = []
  ∧ count_events is_list_access
      (CreateTensorArg (Ext := Test.healthy) Test.state (-1)
         (Some Test.dims_with_ref) 7 16).2 = 0.
Proof.
  apply (CreateTensorArg_dtype_before_dims (Ext := Test.healthy)).
  unfold valid_dtype. cbn. lia.
Defined.

Lemma CreateTensorArg_unreadable_dims_witness :
  ∃ status events,
    CreateTensorArg (Ext := Test.healthy) Test.state 0
        (Some Test.dims_with_ref) 7 16
      = (Failed status, events)
    ∧ status = (read_i64 (Ext := Test.healthy) Test.dims_with_ref 1).1
    ∧ iree_status_is_ok status = false
    ∧ (code (read_i64 (Ext := Test.healthy) Test.dims_with_ref 1).1
         = kInvalidArgument
       ∨ code (read_i64 (Ext := Test.healthy) Test.dims_with_ref 1).1
         = kOutOfRange →
       code status = kInvalidArgument ∨ code status = kOutOfRange)
    ∧ events
      = EvListSize (Ext := Test.healthy) Test.dims_with_ref
          :: element_reads (Ext := Test.healthy) Test.dims_with_ref 0 2
    ∧ count_events is_tensor_create events = 0.
Proof.
  apply (CreateTensorArg_unreadable_dims (Ext := Test.healthy)).
  - unfold valid_dtype. cbn. lia.
  - split; [cbn; lia |]. split.
    + intros i Hi. destruct i as [| i]; [reflexivity | lia].
    + unfold readable. cbn. discriminate.
Defined.

(** C7 as it is claimed fails for a list that cannot be accessed: with a
    valid dtype and a null dims reference the call does not return an
    error. The reference is dereferenced unchecked, which is undefined
    behaviour, before any call to the list API is made. *)
Lemma CreateTensorArg_null_dims_no_error :
  valid_dtype (Ext := Test.healthy) 0
  ∧ CreateTensorArg (Ext := Test.healthy) Test.state 0 None 7 16
    = (Undefined, [])
  ∧ ¬ ∃ status,
        (CreateTensorArg (Ext := Test.healthy) Test.state 0 None 7 16).1
        = Failed status.
Proof.
  split; [unfold valid_dtype; cbn; lia |].
  split; [reflexivity |].
  intros (status & Hstatus). vm_compute in Hstatus. discriminate.
Qed.

Lemma LoadI64Vec_spec_witness :
  (∃ vector,
     LoadI64Vec (Ext := Test.healthy) Test.dims_2_3_4
     = (Ok vector,
        EvListSize (Ext := Test.healthy) Test.dims_2_3_4
          :: element_reads (Ext := Test.healthy) Test.dims_2_3_4 0 3)
     ∧ length vector = 3
     ∧ ∀ i, i < 3 →
         vector !! i
         = Some (i64 (read_i64 (Ext := Test.healthy) Test.dims_2_3_4 i).2))
  ∧ LoadI64Vec (Ext := Test.healthy) Test.dims_with_ref
    = (Failed (Status kInvalidArgument "variant is not a value type"),
       EvListSize (Ext := Test.healthy) Test.dims_with_ref
         :: element_reads (Ext := Test.healthy) Test.dims_with_ref 0 2).
Proof.
  split.
  - apply (proj1 (LoadI64Vec_spec (Ext := Test.healthy) Test.dims_2_3_4)).
    intros i Hi. do 3 (destruct i as [| i]; [reflexivity |]).
    cbn in Hi. lia.
  - apply (proj2 (LoadI64Vec_spec (Ext := Test.healthy) Test.dims_with_ref) 1).
    split; [cbn; lia |]. split.
    + intros i Hi. destruct i as [| i]; [reflexivity | lia].
    + unfold readable. cbn. discriminate.
Defined.

Lemma PrintTensorDebug_arg_tensor_witness :
  PrintTensorDebug (Ext := Test.healthy) Test.state
      (Some (CuDNNArgTensor Test.arg_tensor))
    = (Ok (),
       [EvStderr (Ext := Test.healthy)
          ("CuDNNArgTensor: CUDNN_BACKEND_TENSOR_DESCRIPTOR" +:+ newline)])
  ∧ count_char "010"
      ("CuDNNArgTensor: CUDNN_BACKEND_TENSOR_DESCRIPTOR" +:+ newline) = 1.
Proof.
  destruct (PrintTensorDebug_arg_tensor (Ext := Test.healthy) Test.state
              Test.arg_tensor) as [Hrun Hline].
  split; [exact Hrun |].
  apply Hline. reflexivity.
Defined.

Lemma CreateState_symbols_failure_witness :
  CreateState (Ext := Test.no_library) ()
    = (Failed (Status kNotFound "libcudnn.so not found"),
       [EvSymbolsInitialize (Ext := Test.no_library) ()])
  ∧ count_events is_cudnn_create
      (CreateState (Ext := Test.no_library) ()).2 = 0
  ∧ ∀ state, (CreateState (Ext := Test.no_library) ()).1 ≠ Ok state.
Proof.
  apply (CreateState_symbols_failure (Ext := Test.no_library) ()).
  reflexivity.
Defined.

Lemma native_handle_destroyed_once_witness :
  (CuDNNModuleState_destructor (Ext := Test.healthy) Test.state).2
    = [EvCudnnDestroy (Ext := Test.healthy) () 1]
  ∧ count_events is_cudnn_destroy
      (CreateState_then_release (Ext := Test.no_library) ()).2 = 0
  ∧ count_events is_cudnn_destroy
      (CreateState_then_release (Ext := Test.create_fails) ()).2 = 0
  ∧ filter (λ e, is_cudnn_destroy e = true)
      (CreateState_then_release (Ext := Test.healthy) ()).2
    = [EvCudnnDestroy (Ext := Test.healthy) () 1].
Proof.
  split; [| split; [| split]].
  - apply (proj1 (native_handle_destroyed_once (Ext := Test.healthy))).
  - apply (proj1 (proj2 (proj2
             (native_handle_destroyed_once (Ext := Test.no_library))))
             () (Status kNotFound "libcudnn.so not found")).
    reflexivity.
  - apply (proj1 (proj2 (proj2
             (native_handle_destroyed_once (Ext := Test.create_fails))))
             () (Status kInternal "cudnnCreate")).
    reflexivity.
  - apply (proj2 (proj2 (proj2
             (native_handle_destroyed_once (Ext := Test.healthy))))
             () Test.state).
    reflexivity.
Defined.

Lemma RegisterType_idempotent_witness :
  RegisterType (Ext := Test.healthy) (CuDNNTensor Test.tensor)
      Test.unregistered "cudnn.tensor"
    = (Test.register_type
         {| destroy := Some (); offsetof_counter := 8;
            type_name := "cudnn.tensor"; type := 0 |},
       [EvRefRegisterType (Ext := Test.healthy)
          {| destroy := Some (); offsetof_counter := 8;
             type_name := "cudnn.tensor"; type := 0 |}])
  ∧ RegisterType (Ext := Test.healthy) (CuDNNTensor Test.tensor)
      (RegisterType (Ext := Test.healthy) (CuDNNTensor Test.tensor)
         Test.unregistered "cudnn.tensor").1.2 "cudnn.tensor"
    = ((iree_ok_status,
        {| destroy := Some (); offsetof_counter := 8;
           type_name := "cudnn.tensor"; type := 1 |}), []).
Proof.
  destruct (RegisterType_idempotent (Ext := Test.healthy)
              (CuDNNTensor Test.tensor) Test.unregistered "cudnn.tensor")
    as (_ & Hfirst & Hsecond).
  split.
  - apply Hfirst. reflexivity.
  - apply (Hsecond "cudnn.tensor"). vm_compute. discriminate.
Defined.

(** * Further properties of the code *)

(** ** GetRowMajorStrides in closed form *)

Lemma Int64_wrap_mod (z : Z) :
  (Int64.wrap z mod SizeT.modulus = z mod SizeT.modulus)%Z.
Proof.
  unfold Int64.wrap, Int64.of_unsigned, SizeT.wrap.
  destruct (Z.ltb_spec (z mod SizeT.modulus) Int64.half_modulus).
  - apply Z.mod_mod. discriminate.
  - replace (z mod SizeT.modulus - SizeT.modulus)%Z
      with (z mod SizeT.modulus + (-1) * SizeT.modulus)%Z by lia.
    rewrite Z_mod_plus_full. apply Z.mod_mod. discriminate.
Qed.

(** A product wraps the same whether or not a factor was wrapped before. *)
Lemma Int64_mul_wrap (a b : Z) : Int64.mul a (Int64.wrap b) = Int64.wrap (a * b).
Proof.
  unfold Int64.mul. unfold Int64.wrap at 1 3. f_equal. unfold SizeT.wrap.
  rewrite <- Z.mul_mod_idemp_r by discriminate.
  rewrite Int64_wrap_mod.
  apply Z.mul_mod_idemp_r. discriminate.
Qed.

Lemma length_without_last (dims : list Z) :
  length (without_last dims) = length dims - 1.
Proof. unfold without_last. apply length_take_le. lia. Qed.

Lemma without_last_app (dims : list Z) (x : Z) : without_last (dims ++ [x]) = dims.
Proof.
  unfold without_last. apply take_app_length'.
  rewrite length_app. cbn. lia.
Qed.

(** Stride [i] is the product of the dimensions [i], [i + 1], ... up to
    the last but one. *)
Lemma GetRowMajorStrides_products (dims : list Z) :
  (Z.of_nat (length dims) < 2 ^ 63)%Z →
  GetRowMajorStrides dims
  = Some ((λ i, Int64.wrap (product (drop i (without_last dims))))
            <$> seq 0 (length dims)).
Proof.
  intros Hsize.
  destruct (GetRowMajorStrides_recurrence dims Hsize)
    as (strides & Hrun & Hlen & Hlast & Hrec).
  rewrite Hrun. f_equal.
  assert (∀ j i, i + j + 1 = length dims →
            strides !! i
            = Some (Int64.wrap (product (drop i (without_last dims)))))
    as Hclosed.
  { induction j as [| j IH]; intros i Hi.
    - rewrite Hlast by lia.
      rewrite drop_ge by (rewrite length_without_last; lia). reflexivity.
    - destruct (lookup_lt_is_Some_2 dims i) as [d Hd]; [lia |].
      rewrite (Hrec i d _ Hd (IH (S i) ltac:(lia))).
      rewrite Int64_mul_wrap.
      rewrite (drop_S (without_last dims) d i).
      + reflexivity.
      + unfold without_last. rewrite lookup_take_lt by lia. exact Hd. }
  apply list_eq. intros i.
  destruct (decide (i < length dims)) as [Hi | Hi].
  - rewrite list_lookup_fmap, lookup_seq_lt by exact Hi. cbn.
    apply (Hclosed (length dims - 1 - i)). lia.
  - rewrite !lookup_ge_None_2; [reflexivity | |].
    + rewrite length_fmap, length_seq. lia.
    + lia.
Qed.

(** The row-major rule in closed form: stride [i] is the product of the
    dimensions after [i]. *)
Lemma row_major_rule_unfold (d : Z) (rest : list Z) :
  row_major_rule (d :: rest)
  = match head rest, head (row_major_rule rest) with
    | Some d', Some s => (d' * s)%Z :: row_major_rule rest
    | _, _ => 1%Z :: row_major_rule rest
    end.
Proof. reflexivity. Qed.

Lemma row_major_rule_cons (d : Z) (rest : list Z) :
  row_major_rule (d :: rest) = product rest :: row_major_rule rest.
Proof.
  revert d. induction rest as [| d' rest' IH]; intros d; [reflexivity |].
  rewrite row_major_rule_unfold, IH. reflexivity.
Qed.

Lemma row_major_rule_products (dims : list Z) :
  row_major_rule dims
  = (λ i, product (drop (S i) dims)) <$> seq 0 (length dims).
Proof.
  induction dims as [| d rest IH]; [reflexivity |].
  rewrite row_major_rule_cons, IH.
  change (seq 0 (length (d :: rest))) with (0 :: seq 1 (length rest)).
  rewrite fmap_cons, <- fmap_S_seq, <- list_fmap_compose. reflexivity.
Qed.

(** X1. For a dims vector of a size that a vector can have,
    [GetRowMajorStrides] returns at every index [i] the product of the
    dimensions from [i] up to the last but one, wrapped to 64 bits; when
    that product fits [int64_t] it is returned exactly. *)
Theorem GetRowMajorStrides_suffix_products (dims : list Z) :
  (Z.of_nat (length dims) < 2 ^ 63)%Z →
  ∃ strides,
    GetRowMajorStrides dims = Some strides
    ∧ ∀ i, i < length dims →
        strides !! i
          = Some (Int64.wrap (product (drop i (without_last dims))))
        ∧ (Int64.in_range (product (drop i (without_last dims))) →
           strides !! i = Some (product (drop i (without_last dims)))).
Proof.
  intros Hsize. eexists. split; [apply GetRowMajorStrides_products, Hsize |].
  intros i Hi.
  rewrite list_lookup_fmap, lookup_seq_lt by exact Hi. cbn.
  split; [reflexivity |].
  intros Hrange. rewrite Int64_wrap_in_range by exact Hrange. reflexivity.
Qed.

(** X2. The last dimension does not enter the strides: two shapes that
    differ in their last dimension only get the same strides. *)
Theorem GetRowMajorStrides_ignores_last_dimension (dims : list Z) (x y : Z) :
  (Z.of_nat (length dims) + 1 < 2 ^ 63)%Z →
  GetRowMajorStrides (dims ++ [x]) = GetRowMajorStrides (dims ++ [y]).
Proof.
  intros Hsize.
  rewrite !GetRowMajorStrides_products
    by (rewrite length_app; cbn [length]; lia).
  rewrite !without_last_app, !length_app. reflexivity.
Qed.

(** X3. The strides that [GetRowMajorStrides] returns for a non-empty
    shape are the row-major strides, wrapped to 64 bits, of the shape
    shifted by one place: any extent in front, then the dimensions without
    the last one. *)
Theorem GetRowMajorStrides_shifted_row_major (dims : list Z) (x : Z) :
  dims ≠ [] →
  (Z.of_nat (length dims) < 2 ^ 63)%Z →
  GetRowMajorStrides dims
  = Some (Int64.wrap <$> row_major_rule (x :: without_last dims)).
Proof.
  intros Hne Hsize.
  rewrite GetRowMajorStrides_products by exact Hsize. f_equal.
  rewrite row_major_rule_products, <- list_fmap_compose.
  cbn [length]. rewrite length_without_last.
  replace (S (length dims - 1)) with (length dims)
    by (destruct dims; [contradiction | cbn; lia]).
  reflexivity.
Qed.

(** X4. For a shape of rank 2 the code returns the strides [rows, 1],
    where the row-major rule has [cols, 1]: the two agree exactly for the
    square shapes. *)
Theorem GetRowMajorStrides_rank_2 (rows cols : Z) :
  Int64.in_range rows →
  GetRowMajorStrides [rows; cols] = Some [rows; 1%Z]
  ∧ row_major_rule [rows; cols] = [cols; 1%Z]
  ∧ (GetRowMajorStrides [rows; cols] = Some (row_major_rule [rows; cols])
     ↔ rows = cols).
Proof.
  intros Hrange.
  assert (GetRowMajorStrides [rows; cols] = Some [rows; 1%Z]) as Hcode.
  { rewrite GetRowMajorStrides_products by (cbn; lia).
    change (Some [Int64.wrap (rows * 1); Int64.wrap 1] = Some [rows; 1%Z]).
    rewrite Z.mul_1_r, (Int64_wrap_in_range rows) by exact Hrange.
    reflexivity. }
  assert (row_major_rule [rows; cols] = [cols; 1%Z]) as Hrule.
  { change (row_major_rule [rows; cols]) with [(cols * 1)%Z; 1%Z].
    rewrite Z.mul_1_r. reflexivity. }
  split; [exact Hcode |]. split; [exact Hrule |].
  rewrite Hcode, Hrule. split.
  - intros [= ->]. reflexivity.
  - intros ->. reflexivity.
Qed.

(** X5. When all dimensions are equal, the strides of the code are the
    row-major strides (wrapped to 64 bits). *)
Theorem GetRowMajorStrides_equal_dimensions (n : nat) (d : Z) :
  (Z.of_nat n < 2 ^ 63)%Z →
  GetRowMajorStrides (replicate n d)
  = Some (Int64.wrap <$> row_major_rule (replicate n d)).
Proof.
  intros Hsize. destruct n as [| n]; [reflexivity |].
  rewrite GetRowMajorStrides_products by (rewrite length_replicate; exact Hsize).
  f_equal.
  rewrite row_major_rule_products, <- list_fmap_compose.
  replace (without_last (replicate (S n) d)) with (replicate n d).
  - rewrite !length_replicate. reflexivity.
  - unfold without_last. rewrite length_replicate, take_replicate.
    f_equal. lia.
Qed.

(** ** The functions of the module, beyond the claims *)

Section Coverage.
Context `{Ext : Externals}.

Lemma count_events_app (kind : Event → bool) (a b : list Event) :
  count_events kind (a ++ b) = count_events kind a + count_events kind b.
Proof. unfold count_events. rewrite filter_app. apply length_app. Qed.

Lemma count_events_list_reads (vm_list : iree_vm_list_t) (count : nat) :
  count_events is_tensor_create
    (EvListSize vm_list :: element_reads vm_list 0 count) = 0.
Proof.
  unfold count_events. rewrite filter_cons_False by (cbn; discriminate).
  apply (count_events_element_reads is_tensor_create); reflexivity.
Qed.

(** Either the first [n] elements can all be read, or one of them is the
    first that cannot. *)
Lemma readable_prefix (vm_list : iree_vm_list_t) (n : nat) :
  (∀ i, i < n → readable vm_list i)
  ∨ (∃ k, k < n ∧ (∀ i, i < k → readable vm_list i) ∧ ¬ readable vm_list k).
Proof.
  induction n as [| n [Hall | (k & Hk & Hbefore & Hbad)]].
  - left. intros i Hi. lia.
  - destruct (iree_status_is_ok (read_i64 vm_list n).1) eqn:Hn.
    + left. intros i Hi. destruct (decide (i = n)) as [-> | Hne].
      * exact Hn.
      * apply Hall. lia.
    + right. exists n. split; [lia |]. split; [exact Hall |].
      unfold readable. rewrite Hn. discriminate.
  - right. exists k. split; [lia |]. split; assumption.
Qed.

Lemma all_readable_or_first_unreadable (vm_list : iree_vm_list_t) :
  all_readable vm_list ∨ ∃ k, first_unreadable vm_list k.
Proof.
  destruct (readable_prefix vm_list (iree_vm_list_size vm_list))
    as [Hall | (k & Hk)].
  - left. exact Hall.
  - right. exists k. exact Hk.
Qed.

(** X6. Whatever the list holds, [LoadI64Vec] stays inside its vector: it
    asks for the size once, then reads elements in ascending order and
    never more of them than the list has, and it either returns a vector
    as long as the list after reading all of them, or a status that is
    not OK after at least one read. *)
Theorem LoadI64Vec_bounded_reads (vm_list : iree_vm_list_t) :
  ∃ count,
    count ≤ iree_vm_list_size vm_list
    ∧ (LoadI64Vec vm_list).2
      = EvListSize vm_list :: element_reads vm_list 0 count
    ∧ ((count = iree_vm_list_size vm_list
        ∧ ∃ vector, (LoadI64Vec vm_list).1 = Ok vector
                    ∧ length vector = iree_vm_list_size vm_list)
       ∨ (0 < count
          ∧ ∃ status, (LoadI64Vec vm_list).1 = Failed status
                      ∧ iree_status_is_ok status = false)).
Proof.
  destruct (all_readable_or_first_unreadable vm_list)
    as [Hall | (k & Hfirst)].
  - exists (iree_vm_list_size vm_list).
    rewrite LoadI64Vec_ok by exact Hall.
    split; [lia |]. split; [reflexivity |]. left. split; [reflexivity |].
    eexists. split; [reflexivity |].
    rewrite length_fmap, length_seq. reflexivity.
  - exists (S k).
    rewrite (LoadI64Vec_error vm_list k) by exact Hfirst.
    destruct Hfirst as (Hk & _ & Hbad).
    split; [lia |]. split; [reflexivity |]. right. split; [lia |].
    eexists. split; [reflexivity |].
    apply not_true_is_false, Hbad.
Qed.

(** *** CreateTensorArg, path by path *)

Lemma CreateTensorArg_read_error (self : CuDNNModuleState) (dtype : Z)
    (dims : iree_vm_list_t) (uid alignment : Z) (k : nat) :
  valid_dtype dtype →
  first_unreadable dims k →
  CreateTensorArg self dtype (Some dims) uid alignment
  = (Failed (read_i64 dims k).1,
     EvListSize dims :: element_reads dims 0 (S k)).
Proof.
  intros Hvalid Hfirst. unfold CreateTensorArg.
  rewrite ToCudnnDataType_valid by exact Hvalid.
  cbn [IREE_ASSIGN_OR_RETURN defined]. rewrite !bind_ret.
  rewrite (LoadI64Vec_error dims k) by exact Hfirst. reflexivity.
Qed.

Lemma CreateTensorArg_all_readable (self : CuDNNModuleState) (dtype : Z)
    (dims : iree_vm_list_t) (uid alignment : Z) :
  valid_dtype dtype →
  all_readable dims →
  ∃ strides,
    GetRowMajorStrides (elements_i64 dims) = Some strides
    ∧ length strides = iree_vm_list_size dims
    ∧ CreateTensorArg self dtype (Some dims) uid alignment
      = (returned (CuDNNArgTensor_Create (syms_ self) (elements_i64 dims)
                     strides uid dtype alignment),
         EvListSize dims
           :: element_reads dims 0 (iree_vm_list_size dims)
           ++ [EvArgTensorCreate (syms_ self) (elements_i64 dims) strides
                 uid dtype alignment]).
Proof.
  intros Hvalid Hall.
  destruct (GetRowMajorStrides_total (elements_i64 dims))
    as (strides & Hstrides & Hlen).
  exists strides. split; [exact Hstrides |]. split.
  - rewrite Hlen. unfold elements_i64.
    rewrite length_fmap, length_seq. reflexivity.
  - rewrite (CreateTensorArg_ok self dtype dims uid alignment strides
               Hvalid Hall Hstrides).
    fold (elements_i64 dims).
    destruct (CuDNNArgTensor_Create _ _ _ _ _ _); reflexivity.
Qed.

(** The four ways through [CreateTensorArg]. *)
Lemma CreateTensorArg_cases (self : CuDNNModuleState) (dtype : Z)
    (dims : vm_ref iree_vm_list_t) (uid alignment : Z) :
  (¬ valid_dtype dtype
   ∧ CreateTensorArg self dtype dims uid alignment
     = (Failed (Status kInvalidArgument "unsupported data type"), []))
  ∨ (valid_dtype dtype ∧ dims = None
     ∧ CreateTensorArg self dtype dims uid alignment = (Undefined, []))
  ∨ (valid_dtype dtype
     ∧ ∃ vm_list k,
         dims = Some vm_list ∧ first_unreadable vm_list k
         ∧ CreateTensorArg self dtype dims uid alignment
           = (Failed (read_i64 vm_list k).1,
              EvListSize vm_list :: element_reads vm_list 0 (S k)))
  ∨ (valid_dtype dtype
     ∧ ∃ vm_list strides,
         dims = Some vm_list ∧ all_readable vm_list
         ∧ CreateTensorArg self dtype dims uid alignment
           = (returned (CuDNNArgTensor_Create (syms_ self)
                          (elements_i64 vm_list) strides uid dtype alignment),
              EvListSize vm_list
                :: element_reads vm_list 0 (iree_vm_list_size vm_list)
                ++ [EvArgTensorCreate (syms_ self) (elements_i64 vm_list)
                      strides uid dtype alignment])).
Proof.
  destruct (decide (CUDNN_DATA_FLOAT ≤ dtype ≤ CUDNN_DATA_FAST_FLOAT_FOR_FP8)%Z)
    as [Hvalid | Hinvalid].
  2: { left. split; [exact Hinvalid |].
       apply CreateTensorArg_invalid_dtype. exact Hinvalid. }
  right. destruct dims as [vm_list |].
  2: { left. split; [exact Hvalid |]. split; [reflexivity |].
       apply CreateTensorArg_null_dims. exact Hvalid. }
  right. destruct (all_readable_or_first_unreadable vm_list)
    as [Hall | (k & Hfirst)].
  - right. split; [exact Hvalid |].
    destruct (CreateTensorArg_all_readable self dtype vm_list uid alignment
                Hvalid Hall) as (strides & _ & _ & Hrun).
    exists vm_list, strides. auto.
  - left. split; [exact Hvalid |]. exists vm_list, k.
    split; [reflexivity |]. split; [exact Hfirst |].
    apply CreateTensorArg_read_error; assumption.
Qed.

(** X7. With a valid dtype and a list whose elements are all readable,
    [CreateTensorArg] calls the native tensor constructor exactly once, as
    its last call, with the elements of the list as dimensions, the strides
    that [GetRowMajorStrides] computes from them (as many as dimensions),
    and the uid, dtype and alignment as passed; what the constructor
    returns, a tensor or a failing status, is what the call returns. *)
Theorem CreateTensorArg_constructs_tensor (self : CuDNNModuleState)
    (dtype : Z) (dims : iree_vm_list_t) (uid alignment : Z) :
  valid_dtype dtype →
  all_readable dims →
  ∃ strides,
    GetRowMajorStrides (elements_i64 dims) = Some strides
    ∧ length strides = iree_vm_list_size dims
    ∧ CreateTensorArg self dtype (Some dims) uid alignment
      = (returned (CuDNNArgTensor_Create (syms_ self) (elements_i64 dims)
                     strides uid dtype alignment),
         EvListSize dims
           :: element_reads dims 0 (iree_vm_list_size dims)
           ++ [EvArgTensorCreate (syms_ self) (elements_i64 dims) strides
                 uid dtype alignment])
    ∧ count_events is_tensor_create
        (CreateTensorArg self dtype (Some dims) uid alignment).2 = 1.
Proof.
  intros Hvalid Hall.
  destruct (CreateTensorArg_all_readable self dtype dims uid alignment
              Hvalid Hall) as (strides & Hstrides & Hlen & Hrun).
  exists strides. split; [exact Hstrides |]. split; [exact Hlen |].
  split; [exact Hrun |].
  rewrite Hrun. cbn [snd].
  rewrite app_comm_cons, count_events_app, count_events_list_reads.
  reflexivity.
Qed.

(** X8. [CreateTensorArg] calls the native tensor constructor at most
    once, and it calls it exactly when the dtype is valid, the dims
    reference is not null and every element of the list is readable. *)
Theorem CreateTensorArg_constructor_called_iff (self : CuDNNModuleState)
    (dtype : Z) (dims : vm_ref iree_vm_list_t) (uid alignment : Z) :
  count_events is_tensor_create
    (CreateTensorArg self dtype dims uid alignment).2 ≤ 1
  ∧ (count_events is_tensor_create
       (CreateTensorArg self dtype dims uid alignment).2 = 1
     ↔ valid_dtype dtype
       ∧ ∃ vm_list, dims = Some vm_list ∧ all_readable vm_list).
Proof.
  destruct (CreateTensorArg_cases self dtype dims uid alignment)
    as [(Hinvalid & ->) | [(Hvalid & -> & ->)
       | [(Hvalid & vm_list & k & -> & Hfirst & ->)
       | (Hvalid & vm_list & strides & -> & Hall & ->)]]]; cbn [snd].
  - split; [cbn; lia |]. split; [discriminate |].
    intros (Hvalid & _). contradiction.
  - split; [cbn; lia |]. split; [discriminate |].
    intros (_ & vm_list & Hdims & _). discriminate.
  - rewrite count_events_list_reads.
    split; [lia |]. split; [discriminate |].
    intros (_ & vm_list' & [= <-] & Hall).
    destruct Hfirst as (Hk & _ & Hbad). exfalso. apply Hbad, Hall, Hk.
  - rewrite app_comm_cons, count_events_app, count_events_list_reads.
    replace (count_events is_tensor_create [_]) with 1 by reflexivity.
    split; [lia |]. split; [| reflexivity].
    intros _. split; [exact Hvalid |]. exists vm_list. auto.
Qed.

(** X9. Take a call in which no product of the stride loop overflows
    [int64_t] (for a list of a size that a vector can have). Then
    [CreateTensorArg] runs into undefined behaviour exactly when the dtype
    is valid and the dims reference is null, it never aborts the process,
    and when it reaches the native constructor the strides it passes are
    the exact products of the dimensions: no wrap-around has taken
    place. *)
Theorem CreateTensorArg_undefined_without_overflow (self : CuDNNModuleState)
    (dtype : Z) (dims : vm_ref iree_vm_list_t) (uid alignment : Z) :
  (∀ vm_list,
     dims = Some vm_list → all_readable vm_list →
     (Z.of_nat (iree_vm_list_size vm_list) < 2 ^ 63)%Z
     ∧ products_fit (elements_i64 vm_list)) →
  ((CreateTensorArg self dtype dims uid alignment).1 = Undefined
   ↔ valid_dtype dtype ∧ dims = None)
  ∧ (CreateTensorArg self dtype dims uid alignment).1 ≠ Aborted
  ∧ (∀ vm_list,
       valid_dtype dtype → dims = Some vm_list → all_readable vm_list →
       let strides :=
         ((λ i, product (drop i (without_last (elements_i64 vm_list))))
            <$> seq 0 (iree_vm_list_size vm_list)) in
       CreateTensorArg self dtype dims uid alignment
       = (returned (CuDNNArgTensor_Create (syms_ self)
                      (elements_i64 vm_list) strides uid dtype alignment),
          EvListSize vm_list
            :: element_reads vm_list 0 (iree_vm_list_size vm_list)
            ++ [EvArgTensorCreate (syms_ self) (elements_i64 vm_list)
                  strides uid dtype alignment])).
Proof.
  intros Hfit. split; [| split].
  - destruct (CreateTensorArg_cases self dtype dims uid alignment)
      as [(Hinvalid & ->) | [(Hvalid & -> & ->)
         | [(Hvalid & vm_list & k & -> & Hfirst & ->)
         | (Hvalid & vm_list & strides & -> & Hall & ->)]]]; cbn [fst].
    + split; [discriminate |]. intros (Hvalid & _). contradiction.
    + split; auto.
    + split; [discriminate |]. intros (_ & Hdims). discriminate.
    + destruct (CuDNNArgTensor_Create _ _ _ _ _ _); cbn [returned];
        (split; [discriminate |]); intros (_ & Hdims); discriminate.
  - destruct (CreateTensorArg_cases self dtype dims uid alignment)
      as [(Hinvalid & ->) | [(Hvalid & -> & ->)
         | [(Hvalid & vm_list & k & -> & Hfirst & ->)
         | (Hvalid & vm_list & strides & -> & Hall & ->)]]]; cbn [fst];
      try discriminate.
    destruct (CuDNNArgTensor_Create _ _ _ _ _ _); discriminate.
  - intros vm_list Hvalid -> Hall. cbv zeta.
    destruct (Hfit vm_list eq_refl Hall) as (Hsize & Hproducts).
    destruct (CreateTensorArg_all_readable self dtype vm_list uid alignment
                Hvalid Hall) as (strides & Hstrides & _ & Hrun).
    assert (length (elements_i64 vm_list) = iree_vm_list_size vm_list)
      as Hlen.
    { unfold elements_i64. rewrite length_fmap, length_seq. reflexivity. }
    rewrite GetRowMajorStrides_products in Hstrides
      by (rewrite Hlen; exact Hsize).
    injection Hstrides as <-.
    rewrite Hrun, Hlen.
    assert ((λ i, Int64.wrap
                    (product (drop i (without_last (elements_i64 vm_list)))))
              <$> seq 0 (iree_vm_list_size vm_list)
            = (λ i, product (drop i (without_last (elements_i64 vm_list))))
                <$> seq 0 (iree_vm_list_size vm_list)) as ->.
    { apply list_fmap_ext. intros j i Hi.
      apply lookup_seq in Hi as (-> & Hj).
      apply Int64_wrap_in_range, Hproducts. rewrite Hlen. cbn. exact Hj. }
    reflexivity.
Qed.

(** X10. An empty dims list is not rejected: with a valid dtype the list
    is asked for its size, no element is read, and the native constructor
    is called with no dimension and no stride; its result is returned. *)
Theorem CreateTensorArg_empty_dims (self : CuDNNModuleState) (dtype : Z)
    (dims : iree_vm_list_t) (uid alignment : Z) :
  valid_dtype dtype →
  iree_vm_list_size dims = 0 →
  CreateTensorArg self dtype (Some dims) uid alignment
  = (returned (CuDNNArgTensor_Create (syms_ self) [] [] uid dtype alignment),
     [EvListSize dims;
      EvArgTensorCreate (syms_ self) [] [] uid dtype alignment]).
Proof.
  intros Hvalid Hsize.
  assert (all_readable dims) as Hall.
  { intros i Hi. rewrite Hsize in Hi. lia. }
  destruct (CreateTensorArg_all_readable self dtype dims uid alignment
              Hvalid Hall) as (strides & Hstrides & _ & Hrun).
  rewrite Hrun. unfold elements_i64 in *. rewrite Hsize in *.
  cbn in Hstrides. injection Hstrides as <-. reflexivity.
Qed.

(** *** CreateState *)

(** X11. [CreateState] returns a module state exactly when the symbols
    load and [cudnnCreate] reports success; the state then owns the loaded
    symbols and the created handle, and the calls made are the loader
    followed by [cudnnCreate], each once. *)
Theorem CreateState_succeeds_iff (host_allocator : iree_allocator_t) :
  let loaded := openxla_cudnn_dynamic_symbols_initialize host_allocator in
  let created := cudnnCreate loaded.2 in
  ((∃ state, (CreateState host_allocator).1 = Ok state)
   ↔ iree_status_is_ok loaded.1 = true ∧ created.1 = CUDNN_STATUS_SUCCESS)
  ∧ (∀ state,
       (CreateState host_allocator).1 = Ok state →
       state = {| syms_ := loaded.2; handle_ := created.2 |}
       ∧ (CreateState host_allocator).2
         = [EvSymbolsInitialize host_allocator; EvCudnnCreate loaded.2]).
Proof.
  cbv zeta. rewrite CreateState_cases. cbv zeta.
  destruct (iree_status_is_ok _); cbn [negb].
  - destruct (decide _) as [Hsuccess | Hfailure]; cbn [fst snd].
    + split.
      * split; [auto | eauto].
      * intros state [= <-]. auto.
    + split.
      * split; [intros (state & Hstate); discriminate |].
        intros (_ & Hsuccess). contradiction.
      * intros state Hstate. discriminate.
  - cbn [fst snd]. split.
    + split; [intros (state & Hstate); discriminate |].
      intros (Hok & _). discriminate.
    + intros state Hstate. discriminate.
Qed.

(** X12. When the symbols load but [cudnnCreate] reports an error,
    [CreateState] returns the status made from that error code under the
    name [cudnnCreate]; [cudnnCreate] has been called once and is not
    tried again, nothing is destroyed and no state is returned. *)
Theorem CreateState_create_failure (host_allocator : iree_allocator_t) :
  let loaded := openxla_cudnn_dynamic_symbols_initialize host_allocator in
  let created := cudnnCreate loaded.2 in
  iree_status_is_ok loaded.1 = true →
  created.1 ≠ CUDNN_STATUS_SUCCESS →
  CreateState host_allocator
    = (Failed (openxla_cudnn_status_to_status created.1 "cudnnCreate"),
       [EvSymbolsInitialize host_allocator; EvCudnnCreate loaded.2])
  ∧ count_events is_cudnn_create (CreateState host_allocator).2 = 1
  ∧ count_events is_cudnn_destroy (CreateState host_allocator).2 = 0.
Proof.
  cbv zeta. intros Hok Hfailure.
  rewrite CreateState_cases. cbv zeta. rewrite Hok. cbn [negb].
  rewrite decide_False by exact Hfailure. repeat split.
Qed.

(** *** iree_custom_module_cudnn_register_types *)

(** The descriptor that [RegisterType] hands to the VM for the tensor
    type: it depends on nothing that the descriptor held before. *)
Lemma register_types_unregistered
    `{!RefObject iree_vm_ref_destroy_t (CuDNNTensor cudnn_frontend_Tensor)}
    (descriptor : descriptor_t) :
  type descriptor = IREE_VM_REF_TYPE_NULL →
  let populated : descriptor_t :=
    {| destroy := Some (T_DirectDestroy (CuDNNTensor cudnn_frontend_Tensor));
       offsetof_counter := T_offsetof_counter (CuDNNTensor cudnn_frontend_Tensor);
       type_name := "cudnn.tensor";
       type := IREE_VM_REF_TYPE_NULL |} in
  let registered := iree_vm_ref_register_type populated in
  iree_custom_module_cudnn_register_types descriptor
  = ((if iree_status_is_ok registered.1 then iree_ok_status
      else registered.1, registered.2),
     [EvRefRegisterType populated]).
Proof.
  intros Hnull. cbv zeta.
  unfold iree_custom_module_cudnn_register_types, RegisterType.
  rewrite decide_True by exact Hnull. cbn [type type_name offsetof_counter destroy].
  rewrite Hnull.
  destruct (iree_vm_ref_register_type _) as [status registered].
  cbn [fst snd]. destruct (iree_status_is_ok status); reflexivity.
Qed.

Lemma register_types_registered
    `{!RefObject iree_vm_ref_destroy_t (CuDNNTensor cudnn_frontend_Tensor)}
    (descriptor : descriptor_t) :
  type descriptor ≠ IREE_VM_REF_TYPE_NULL →
  iree_custom_module_cudnn_register_types descriptor
  = ((iree_ok_status, descriptor), []).
Proof.
  intros Hregistered.
  unfold iree_custom_module_cudnn_register_types, RegisterType.
  rewrite decide_False by exact Hregistered. reflexivity.
Qed.

(** X13. On a descriptor in the null state,
    [iree_custom_module_cudnn_register_types] registers with the VM, once,
    a descriptor named [cudnn.tensor] with the counter offset and the
    destroy callback of the tensor type, whatever the descriptor held
    before; it returns the OK status when the VM accepts the type and the
    status of the VM when it does not, and leaves the descriptor as the VM
    left it. *)
Theorem register_types_registers_tensor_type
    `{!RefObject iree_vm_ref_destroy_t (CuDNNTensor cudnn_frontend_Tensor)}
    (descriptor : descriptor_t) :
  type descriptor = IREE_VM_REF_TYPE_NULL →
  ∃ populated : descriptor_t,
    type_name populated = "cudnn.tensor"
    ∧ offsetof_counter populated
      = T_offsetof_counter (CuDNNTensor cudnn_frontend_Tensor)
    ∧ destroy populated
      = Some (T_DirectDestroy (CuDNNTensor cudnn_frontend_Tensor))
    ∧ type populated = IREE_VM_REF_TYPE_NULL
    ∧ (iree_custom_module_cudnn_register_types descriptor).2
      = [EvRefRegisterType populated]
    ∧ (iree_custom_module_cudnn_register_types descriptor).1.2
      = (iree_vm_ref_register_type populated).2
    ∧ (iree_status_is_ok (iree_vm_ref_register_type populated).1 = true →
       (iree_custom_module_cudnn_register_types descriptor).1.1
       = iree_ok_status)
    ∧ (iree_status_is_ok (iree_vm_ref_register_type populated).1 = false →
       (iree_custom_module_cudnn_register_types descriptor).1.1
       = (iree_vm_ref_register_type populated).1).
Proof.
  intros Hnull.
  rewrite (register_types_unregistered descriptor Hnull). cbv zeta.
  exists
    {| destroy := Some (T_DirectDestroy (CuDNNTensor cudnn_frontend_Tensor));
       offsetof_counter :=
         T_offsetof_counter (CuDNNTensor cudnn_frontend_Tensor);
       type_name := "cudnn.tensor";
       type := IREE_VM_REF_TYPE_NULL |}.
  do 6 (split; [reflexivity |]).
  cbn [fst snd]. split; intros Hstatus; rewrite Hstatus; reflexivity.
Qed.

(** X14. Registering the types a second time: when the first call has
    left the descriptor with a type that is not null, the second call
    returns the OK status, leaves the descriptor as it is and does not
    call the VM; when the first call started from the null state and the
    VM has left the type null, the second call asks the VM again, with
    the same descriptor as the first. *)
Theorem register_types_twice
    `{!RefObject iree_vm_ref_destroy_t (CuDNNTensor cudnn_frontend_Tensor)}
    (descriptor : descriptor_t) :
  let first := iree_custom_module_cudnn_register_types descriptor in
  (type first.1.2 ≠ IREE_VM_REF_TYPE_NULL →
   iree_custom_module_cudnn_register_types first.1.2
   = ((iree_ok_status, first.1.2), []))
  ∧ (type descriptor = IREE_VM_REF_TYPE_NULL →
     type first.1.2 = IREE_VM_REF_TYPE_NULL →
     (iree_custom_module_cudnn_register_types first.1.2).2 = first.2
     ∧ length first.2 = 1).
Proof.
  cbv zeta. split.
  - apply register_types_registered.
  - intros Hnull Hstill.
    rewrite (register_types_unregistered _ Hstill).
    rewrite (register_types_unregistered _ Hnull).
    split; reflexivity.
Qed.

End Coverage.

(** ** The further properties at concrete inputs *)

Lemma GetRowMajorStrides_suffix_products_witness :
  ∃ strides,
    GetRowMajorStrides [2; 3; 4]%Z = Some strides
    ∧ ∀ i, i < 3 →
        strides !! i
          = Some (Int64.wrap (product (drop i (without_last [2; 3; 4]%Z))))
        ∧ (Int64.in_range (product (drop i (without_last [2; 3; 4]%Z))) →
           strides !! i = Some (product (drop i (without_last [2; 3; 4]%Z)))).
Proof.
  apply (GetRowMajorStrides_suffix_products [2; 3; 4]%Z). reflexivity.
Defined.

Lemma GetRowMajorStrides_ignores_last_dimension_witness :
  GetRowMajorStrides ([2; 3] ++ [4])%Z = GetRowMajorStrides ([2; 3] ++ [5])%Z.
Proof.
  apply (GetRowMajorStrides_ignores_last_dimension [2; 3]%Z 4 5). reflexivity.
Defined.

Lemma GetRowMajorStrides_shifted_row_major_witness :
  GetRowMajorStrides [2; 3; 4]%Z
  = Some (Int64.wrap <$> row_major_rule (9 :: without_last [2; 3; 4])%Z).
Proof.
  apply (GetRowMajorStrides_shifted_row_major [2; 3; 4]%Z 9).
  - discriminate.
  - reflexivity.
Defined.

Lemma GetRowMajorStrides_rank_2_witness :
  GetRowMajorStrides [2; 3]%Z = Some [2; 1]%Z
  ∧ row_major_rule [2; 3]%Z = [3; 1]%Z
  ∧ (GetRowMajorStrides [2; 3]%Z = Some (row_major_rule [2; 3]%Z)
     ↔ 2%Z = 3%Z).
Proof.
  apply (GetRowMajorStrides_rank_2 2 3).
  unfold Int64.in_range, Int64.half_modulus. lia.
Defined.

Lemma GetRowMajorStrides_equal_dimensions_witness :
  GetRowMajorStrides (replicate 3 5%Z)
  = Some (Int64.wrap <$> row_major_rule (replicate 3 5%Z)).
Proof.
  apply (GetRowMajorStrides_equal_dimensions 3 5). reflexivity.
Defined.

Lemma CreateTensorArg_constructs_tensor_witness :
  ∃ strides,
    GetRowMajorStrides (elements_i64 (Ext := Test.healthy) Test.dims_2_3_4)
      = Some strides
    ∧ length strides = 3
    ∧ CreateTensorArg (Ext := Test.healthy) Test.state 0
        (Some Test.dims_2_3_4) 7 16
      = (returned
           (CuDNNArgTensor_Create (Externals := Test.healthy) ()
              (elements_i64 (Ext := Test.healthy) Test.dims_2_3_4) strides
              7 0 16),
         EvListSize (Ext := Test.healthy) Test.dims_2_3_4
           :: element_reads (Ext := Test.healthy) Test.dims_2_3_4 0 3
           ++ [EvArgTensorCreate (Ext := Test.healthy) ()
                 (elements_i64 (Ext := Test.healthy) Test.dims_2_3_4)
                 strides 7%Z 0%Z 16%Z])
    ∧ count_events is_tensor_create
        (CreateTensorArg (Ext := Test.healthy) Test.state 0
           (Some Test.dims_2_3_4) 7 16).2 = 1.
Proof.
  apply (CreateTensorArg_constructs_tensor (Ext := Test.healthy) Test.state 0
           Test.dims_2_3_4 7 16).
  - unfold valid_dtype. cbn. lia.
  - intros i Hi. do 3 (destruct i as [| i]; [reflexivity |]).
    cbn in Hi. lia.
Defined.

Lemma CreateTensorArg_empty_dims_witness :
  CreateTensorArg (Ext := Test.healthy) Test.state 0 (Some []) 7 16
  = (returned
       (CuDNNArgTensor_Create (Externals := Test.healthy) () [] [] 7 0 16),
     [EvListSize (Ext := Test.healthy) [];
      EvArgTensorCreate (Ext := Test.healthy) () [] [] 7%Z 0%Z 16%Z]).
Proof.
  apply (CreateTensorArg_empty_dims (Ext := Test.healthy) Test.state 0 []
           7 16).
  - unfold valid_dtype. cbn. lia.
  - reflexivity.
Defined.

Lemma CreateState_succeeds_iff_witness :
  Test.state
    = @Build_CuDNNModuleState Test.healthy
        (openxla_cudnn_dynamic_symbols_initialize
           (Externals := Test.healthy) ()).2
        (cudnnCreate (Externals := Test.healthy) ()).2
  ∧ (CreateState (Ext := Test.healthy) ()).2
    = [EvSymbolsInitialize (Ext := Test.healthy) ();
       EvCudnnCreate (Ext := Test.healthy) ()].
Proof.
  apply (proj2 (CreateState_succeeds_iff (Ext := Test.healthy) ())).
  reflexivity.
Defined.

Lemma CreateState_create_failure_witness :
  CreateState (Ext := Test.create_fails) ()
    = (Failed (Status kInternal "cudnnCreate"),
       [EvSymbolsInitialize (Ext := Test.create_fails) ();
        EvCudnnCreate (Ext := Test.create_fails) ()])
  ∧ count_events is_cudnn_create
      (CreateState (Ext := Test.create_fails) ()).2 = 1
  ∧ count_events is_cudnn_destroy
      (CreateState (Ext := Test.create_fails) ()).2 = 0.
Proof.
  apply (CreateState_create_failure (Ext := Test.create_fails) ()).
  - reflexivity.
  - cbn. lia.
Defined.

Lemma register_types_registers_tensor_type_witness :
  ∃ populated : iree_vm_ref_type_descriptor_t unit,
    type_name populated = "cudnn.tensor"
    ∧ offsetof_counter populated = 8%Z
    ∧ destroy populated = Some ()
    ∧ type populated = 0%Z
    ∧ (@iree_custom_module_cudnn_register_types Test.healthy
         Test.tensor_ref_object Test.unregistered).2
      = [EvRefRegisterType (Ext := Test.healthy) populated]
    ∧ (@iree_custom_module_cudnn_register_types Test.healthy
         Test.tensor_ref_object Test.unregistered).1.2
      = (Test.register_type populated).2
    ∧ (iree_status_is_ok (Test.register_type populated).1 = true →
       (@iree_custom_module_cudnn_register_types Test.healthy
          Test.tensor_ref_object Test.unregistered).1.1
       = iree_ok_status)
    ∧ (iree_status_is_ok (Test.register_type populated).1 = false →
       (@iree_custom_module_cudnn_register_types Test.healthy
          Test.tensor_ref_object Test.unregistered).1.1
       = (Test.register_type populated).1).
Proof.
  apply (@register_types_registers_tensor_type Test.healthy
           Test.tensor_ref_object Test.unregistered).
  reflexivity.
Defined.

Lemma register_types_twice_witness :
  @iree_custom_module_cudnn_register_types Test.healthy
      Test.tensor_ref_object
      (@iree_custom_module_cudnn_register_types Test.healthy
         Test.tensor_ref_object Test.unregistered).1.2
    = ((iree_ok_status,
        (@iree_custom_module_cudnn_register_types Test.healthy
           Test.tensor_ref_object Test.unregistered).1.2), [])
  ∧ (@iree_custom_module_cudnn_register_types Test.registry_full
       Test.tensor_ref_object
       (@iree_custom_module_cudnn_register_types Test.registry_full
          Test.tensor_ref_object Test.unregistered).1.2).2
    = (@iree_custom_module_cudnn_register_types Test.registry_full
         Test.tensor_ref_object Test.unregistered).2
  ∧ length (@iree_custom_module_cudnn_register_types Test.registry_full
              Test.tensor_ref_object Test.unregistered).2 = 1.
Proof.
  split.
  - apply (proj1 (@register_types_twice Test.healthy Test.tensor_ref_object
                    Test.unregistered)).
    vm_compute. discriminate.
  - apply (proj2 (@register_types_twice Test.registry_full
                    Test.tensor_ref_object Test.unregistered)).
    + reflexivity.
    + reflexivity.
Defined.

Lemma CreateTensorArg_undefined_without_overflow_witness :
  (CreateTensorArg (Ext := Test.healthy) Test.state 0
     (Some Test.dims_2_3_4) 7 16).1 ≠ Aborted
  ∧ CreateTensorArg (Ext := Test.healthy) Test.state 0
      (Some Test.dims_2_3_4) 7 16
    = (Ok (Some (CuDNNArgTensor Test.arg_tensor)),
       [EvListSize (Ext := Test.healthy) Test.dims_2_3_4;
        EvListGetValueAs (Ext := Test.healthy) Test.dims_2_3_4 0
          IREE_VM_VALUE_TYPE_I64;
        EvListGetValueAs (Ext := Test.healthy) Test.dims_2_3_4 1
          IREE_VM_VALUE_TYPE_I64;
        EvListGetValueAs (Ext := Test.healthy) Test.dims_2_3_4 2
          IREE_VM_VALUE_TYPE_I64;
        EvArgTensorCreate (Ext := Test.healthy) () [2; 3; 4]%Z [6; 3; 1]%Z
          7%Z 0%Z 16%Z]).
Proof.
  destruct (CreateTensorArg_undefined_without_overflow (Ext := Test.healthy)
              Test.state 0 (Some Test.dims_2_3_4) 7 16)
    as (_ & Hdefined & Hexact).
  - intros vm_list [= <-] _. split; [reflexivity |].
    intros i Hi.
    do 3 (destruct i as [| i];
          [vm_compute; split; [intros H; discriminate H | reflexivity] |]).
    cbn in Hi. lia.
  - split; [exact Hdefined |].
    rewrite (Hexact Test.dims_2_3_4).
    + reflexivity.
    + unfold valid_dtype. cbn. lia.
    + reflexivity.
    + intros i Hi. do 3 (destruct i as [| i]; [reflexivity |]).
      cbn in Hi. lia.
Defined.
